(** * MottaHunter: the partitioning, permutation and SMTP validation code

    A shallow embedding of [harvester.py] ([MottaHunter._motta_split],
    [validate_targets], [_motta_pause]), of [email_validation.py]
    ([motta_generate_permutations], [motta_validate_email_smtp],
    [motta_validate_info_address], [motta_validate_email_permutations],
    [motta_validate_scraped_emails]) and of the regular expression and the
    company name of the scrapers, with the properties the specification
    states about them.

    Python [int] is [Z]; [//] and [%] are [Z.div] and [Z.modulo] (both floor,
    the remainder taking the sign of the divisor, as in Python).  A Python
    [list] is a [list].  A [str] is a [string] whose characters are its
    code points: the embedding is that of the ASCII strings ([is_ascii]),
    on which [len], indexing, slicing, [str.lower] and the character
    classes of [re] are the operations below.  On other strings Python
    counts code points and lower-cases by the Unicode tables, which the
    embedding does not; a property that needs the restriction states it.
    A [float] is a rational number, without the rounding of binary64; the
    [OverflowError] of a conversion that leaves the range of [float] or
    of the clock is kept.  A call that may raise returns a [Result].

    The code of [email_validation.py] talks to a resolver, to a mail server
    and to the random generator, prints and sleeps.  It is written in a
    monad [M] that passes the events so far, asks a [World] for the answer
    of each outside call and collects the events of the run; [print] itself
    is taken never to fail. *)

From Stdlib Require Import ZArith QArith Lia Lqa Bool Ascii String.
From stdpp Require Import base list strings.

Local Open Scope Z_scope.

(** ** Exceptions and results *)

(** The exception classes that occur.  [LibraryError] stands for whatever
    subclass of [Exception] [dns.resolver] or [smtplib] raise (DNS timeouts,
    NXDOMAIN, refused or reset connections, ...); the code never looks at
    the class, it only catches [Exception]. *)
Inductive exception : Type :=
  | ValueError
  | IndexError
  | OverflowError
  | LibraryError.

Inductive Result (A : Type) : Type :=
  | Ok (a : A)
  | Raise (e : exception).
Arguments Ok {A} a.
Arguments Raise {A} e.

(** ** Python sequence operations *)

Module Py.

(** [len(l)] *)
Definition len {A} (l : list A) : Z := Z.of_nat (length l).

(** How [l[start:stop]] brings one bound into [0 .. len(l)]: a negative
    bound counts from the end, and the result is clamped. *)
Definition clamp (n i : Z) : Z :=
  if i <? 0 then Z.max 0 (i + n) else Z.min i n.

(** [l[start:stop]] (step 1). *)
Definition slice {A} (l : list A) (start stop : Z) : list A :=
  let lo := clamp (len l) start in
  let hi := clamp (len l) stop in
  drop (Z.to_nat lo) (take (Z.to_nat hi) l).

(** [s[:n]] on a string, for a literal [n >= 0]. *)
Fixpoint str_take (n : nat) (s : string) : string :=
  match n, s with
  | S n', String c s' => String c (str_take n' s')
  | _, _ => EmptyString
  end.

(** [s[0]]: raises [IndexError] on the empty string. *)
Definition str_first (s : string) : Result string :=
  match s with
  | EmptyString => Raise IndexError
  | String c _ => Ok (String c EmptyString)
  end.

End Py.

(** ** harvester.py *)

Module Harvester.

(** [MottaHunter._motta_split(permutations, total_parts, selected_part)].
    The method does not use [self]. *)
Definition _motta_split {A} (permutations : list A)
    (total_parts selected_part : Z) : Result (list A) :=
  if negb ((1 <=? selected_part) && (selected_part <=? total_parts))
  then Raise ValueError
  else
    let part_size := Py.len permutations / total_parts in
    let remainder := Py.len permutations mod total_parts in
    let start_idx :=
      (selected_part - 1) * part_size + Z.min (selected_part - 1) remainder in
    let end_idx :=
      start_idx + part_size + (if selected_part <=? remainder then 1 else 0) in
    Ok (Py.slice permutations start_idx end_idx).

(** The 1-based part numbers [1 .. total_parts]. *)
Definition part_numbers (total_parts : Z) : list Z :=
  seqZ 1 total_parts.

(** The size the specification gives part [k] of [n] elements in [t]
    parts, and the position where it begins. *)
Definition part_len (n t k : Z) : Z :=
  n / t + (if k <=? n mod t then 1 else 0).

Definition part_start (n t k : Z) : Z :=
  (k - 1) * (n / t) + Z.min (k - 1) (n mod t).

End Harvester.

(** ** The outside world of email_validation.py *)

(** An SMTP reply, as [smtplib] returns it: [(code, message)]. *)
Definition reply : Type := Z * string.

(** What [random.random()] returns: a number in the half-open interval
    from 0 to 1, here the fraction [num / (num + gap + 1)]. *)
Record unit_fraction : Type := UnitFraction { uf_num : nat; uf_gap : nat }.

Definition uf_value (r : unit_fraction) : Q :=
  Z.of_nat (uf_num r) # Pos.of_succ_nat (uf_num r + uf_gap r).

(** The lines the module prints.  The colour codes and the wording are left
    out, one constructor per [print] call of the source, with the values it
    formats.  [MsgInvalid] is one constructor because the source prints the
    very same line, ["... MottaSec Ghost reports: {email} is invalid."],
    for the address of record and for a candidate. *)
Inductive message : Type :=
  | MsgConnecting (mx_server : string)
  | MsgRcptResponse (email : string) (response : reply)
  | MsgSmtpError (email : string) (e : exception)
  | MsgSkipCheck
  | MsgBlank
  | MsgCheckValid (test_email : string)
  | MsgInvalid (email : string)
  | MsgCatchAll (domain : string)
  | MsgInfoError (e : exception)
  | MsgNoMx (domain : string)
  | MsgFoundMx (mx_server : string)
  | MsgFound (email : string)
  | MsgWaiting (delay_duration : Q)
  | MsgSummary (valid_count total : Z)
  | MsgMxError (domain : string) (e : exception).

(** One event per call that leaves the module, with what it returned. *)
Inductive event : Type :=
  | EvResolve (domain : string) (r : Result (list string))
  | EvConnect (mx_server : string) (r : Result unit)
  | EvSetDebuglevel
  | EvHelo (name : string) (r : Result reply)
  | EvMail (sender : string) (r : Result reply)
  | EvRcpt (email : string) (r : Result reply)
  | EvExit (r : Result unit)
  | EvChoices (random_string : string)
  | EvRandom (r : unit_fraction)
  | EvSleep (secs : Q)
  | EvPrint (m : message).

(** The answers of the resolver, of the mail server and of the random
    generator.  Each may depend on everything that happened before.

    - [resolve_mx h domain]: [dns.resolver.resolve(domain, 'MX')], the
      exchange names of the records in answer order, or an exception.
    - [smtp_connect h mx]: the constructor [smtplib.SMTP(mx, 25, timeout=10)].
    - [smtp_helo], [smtp_mail], [smtp_rcpt]: the three commands; [smtplib]
      returns the server's reply whatever its code and raises only when the
      connection fails.
    - [smtp_exit h]: leaving the [with] block, where [smtplib] sends QUIT,
      raises when the reply is not 221 or the socket fails, and closes.
    - [random_choices h]: the ten letters joined from [random.choices].
    - [random_random h]: the draw inside [random.uniform]. *)
Record World : Type := {
  resolve_mx : list event -> string -> Result (list string);
  smtp_connect : list event -> string -> Result unit;
  smtp_helo : list event -> string -> Result reply;
  smtp_mail : list event -> string -> Result reply;
  smtp_rcpt : list event -> string -> Result reply;
  smtp_exit : list event -> Result unit;
  random_choices : list event -> string;
  random_random : list event -> unit_fraction
}.

(** ** A monad for code that calls out, prints and may raise *)

(** A computation reads the world and the events so far, and gives its
    result together with the events it added, oldest first.  The events of
    a computation that raises are kept, as Python keeps side effects. *)
Definition M (A : Type) : Type := World -> list event -> Result A * list event.

Module MonadM.

Definition ret {A} (a : A) : M A := fun _ _ => (Ok a, []).

Definition bind {A B} (m : M A) (f : A -> M B) : M B :=
  fun w h =>
    match m w h with
    | (Ok a, e1) => let '(r, e2) := f a w (h ++ e1) in (r, e1 ++ e2)
    | (Raise x, e1) => (Raise x, e1)
    end.

Definition raise {A} (x : exception) : M A := fun _ _ => (Raise x, []).

(** [try: body except Exception as e: handler e] *)
Definition try_except {A} (body : M A) (handler : exception -> M A) : M A :=
  fun w h =>
    match body w h with
    | (Ok a, e1) => (Ok a, e1)
    | (Raise x, e1) => let '(r, e2) := handler x w (h ++ e1) in (r, e1 ++ e2)
    end.

(** [with enter as _: body], for a context manager whose [__exit__]
    does not swallow exceptions: [leave] runs however [body] ends,
    and an exception it raises replaces the outcome of [body]. *)
Definition with_ {A} (enter : M unit) (leave : M unit) (body : M A) : M A :=
  bind enter (fun _ => fun w h =>
    let '(r, e1) := body w h in
    match leave w (h ++ e1) with
    | (Ok _, e2) => (r, e1 ++ e2)
    | (Raise x, e2) => (Raise x, e1 ++ e2)
    end).

(** A call whose answer the world decides. *)
Definition call {A} (ask : World -> list event -> Result A)
    (ev : Result A -> event) : M A :=
  fun w h => let r := ask w h in (r, [ev r]).

Definition emit (e : event) : M unit := fun _ _ => (Ok tt, [e]).

Definition when (b : bool) (m : M unit) : M unit := if b then m else ret tt.

End MonadM.
Import MonadM.

Declare Scope py_scope.
Delimit Scope py_scope with py.
Notation "x <- m ;; k" := (bind m (fun x => k))
  (at level 100, m at next level, right associativity) : py_scope.
Notation "m ;; k" := (bind m (fun _ => k))
  (at level 100, right associativity) : py_scope.
Local Open Scope py_scope.

(** The library calls. *)
Definition print (m : message) : M unit := emit (EvPrint m).

Definition dns_resolve (domain : string) : M (list string) :=
  call (fun w h => resolve_mx w h domain) (EvResolve domain).

Definition SMTP_connect (mx_server : string) : M unit :=
  call (fun w h => smtp_connect w h mx_server) (EvConnect mx_server).

Definition SMTP_exit : M unit := call (fun w h => smtp_exit w h) EvExit.

Definition SMTP_set_debuglevel : M unit := emit EvSetDebuglevel.

Definition SMTP_helo (name : string) : M reply :=
  call (fun w h => smtp_helo w h name) (EvHelo name).

Definition SMTP_mail (sender : string) : M reply :=
  call (fun w h => smtp_mail w h sender) (EvMail sender).

Definition SMTP_rcpt (email : string) : M reply :=
  call (fun w h => smtp_rcpt w h email) (EvRcpt email).

(** [''.join(random.choices('abcdefghijklmnopqrstuvwxyz', k=10))] *)
Definition random_choices_join : M string :=
  fun w h => let s := random_choices w h in (Ok s, [EvChoices s]).

(** An [int] that meets a [float] in an operation is converted to
    [float]; the conversion raises [OverflowError] ("int too large to
    convert to float") when the integer rounds to a value beyond the
    largest [float], which is from [2^1024 - 2^970] on. *)
Definition float_of_int (n : Z) : Result Q :=
  if Z.abs n <? 2 ^ 1024 - 2 ^ 970 then Ok (inject_Z n) else Raise OverflowError.

(** [a + (b - a) * r] for two integers [a], [b] and the [float] [r]: the
    product converts [b - a], then the sum converts [a]. *)
Definition uniform_value (a b : Z) (r : unit_fraction) : Result Q :=
  match float_of_int (b - a) with
  | Raise e => Raise e
  | Ok width =>
      match float_of_int a with
      | Raise e => Raise e
      | Ok a' => Ok (a' + width * uf_value r)%Q
      end
  end.

(** [random.uniform] on the unpacked [delay], which is
    [a + (b - a) * self.random()] for the two bounds [a] and [b] of [delay]
    (the list of two integers that the [--delay] option builds, of any
    size and sign).  The draw is made before the arithmetic. *)
Definition random_uniform (delay : Z * Z) : M Q :=
  fun w h =>
    let r := random_random w h in
    (uniform_value (fst delay) (snd delay) r, [EvRandom r]).

(** The longest pause in whole seconds that [time.sleep] takes: it keeps
    the time as a signed 64-bit count of nanoseconds, and [2^63]
    nanoseconds are a little more than 9223372036 seconds. *)
Definition longest_sleep : Z := 9223372036.

(** Whether the seconds fit that count of nanoseconds. *)
Definition fits_clock (secs : Q) : bool :=
  Qle_bool (inject_Z (- 2 ^ 63)) (secs * inject_Z (10 ^ 9))
  && negb (Qle_bool (inject_Z (2 ^ 63)) (secs * inject_Z (10 ^ 9))).

(** What [time.sleep(secs)] raises, if anything: [OverflowError]
    when the seconds do not fit the clock, and [ValueError] ("sleep length
    must be non-negative") for a negative argument that does. *)
Definition sleep_error (secs : Q) : option exception :=
  if negb (fits_clock secs) then Some OverflowError
  else if Qle_bool 0 secs then None
  else Some ValueError.

(** [time.sleep(secs)] *)
Definition time_sleep (secs : Q) : M unit :=
  match sleep_error secs with
  | Some e => raise e
  | None => emit (EvSleep secs)
  end.

(** ** email_validation.py *)

Module EmailValidation.

(** [str.lower()] on an ASCII string: the letters A to Z become a to z
    and every other character is kept. *)
Definition lower_char (c : ascii) : ascii :=
  let n := nat_of_ascii c in
  if (Nat.leb 65 n && Nat.leb n 90)%bool then ascii_of_nat (n + 32) else c.

Fixpoint lower (s : string) : string :=
  match s with
  | EmptyString => EmptyString
  | String c s' => String (lower_char c) (lower s')
  end.

(** A list display whose items may raise: they are evaluated from left
    to right and the first exception ends the evaluation. *)
Fixpoint collect {A} (items : list (Result A)) : Result (list A) :=
  match items with
  | [] => Ok []
  | Raise e :: _ => Raise e
  | Ok a :: rest =>
      match collect rest with
      | Ok l => Ok (a :: l)
      | Raise e => Raise e
      end
  end.

(** [f(x)] for an [x] that may raise. *)
Definition rmap {A B} (f : A -> B) (r : Result A) : Result B :=
  match r with Ok a => Ok (f a) | Raise e => Raise e end.

(** [list(dict.fromkeys(l))]: the keys of the dict in insertion order;
    a key that is already there keeps its place. *)
Definition add_key (keys : list string) (k : string) : list string :=
  if bool_decide (k ∈ keys) then keys else keys ++ [k].

Definition dict_fromkeys (l : list string) : list string :=
  fold_left add_key l [].

Section Patterns.
Variables first_name last_name domain : string.

(** [domain] below is the lower-cased one, as after line 45. *)
Definition fn := lower first_name.
Definition ln := lower last_name.
Definition f0 := rmap lower (Py.str_first first_name).
Definition l0 := rmap lower (Py.str_first last_name).
Definition f3 := lower (Py.str_take 3 first_name).
Definition l3 := lower (Py.str_take 3 last_name).
Definition at_domain (local : string) : string := local +:+ "@" +:+ domain.

Definition level1 : list (Result string) :=
  [ Ok (at_domain (fn +:+ ln));
    Ok (at_domain (fn +:+ "." +:+ ln));
    rmap (fun c => at_domain (c +:+ ln)) f0;
    rmap (fun c => at_domain (c +:+ "." +:+ ln)) f0;
    rmap (fun c => at_domain (c +:+ "_" +:+ ln)) f0;
    Ok (at_domain (fn +:+ "-" +:+ ln)) ].

Definition level2 : list (Result string) :=
  [ Ok (at_domain fn);
    Ok (at_domain ln);
    Ok (at_domain (fn +:+ "_" +:+ ln));
    Ok (at_domain (ln +:+ "." +:+ fn));
    Ok (at_domain (ln +:+ "_" +:+ fn));
    Ok (at_domain (ln +:+ fn)) ].

Definition level3 : list (Result string) :=
  [ rmap (fun c => at_domain (c +:+ l3)) f0;
    rmap (fun c => at_domain (c +:+ "." +:+ l3)) f0;
    rmap (fun c => at_domain (f3 +:+ c)) l0;
    rmap (fun c => at_domain (l3 +:+ c)) f0;
    rmap (fun c => at_domain (fn +:+ c)) l0;
    rmap (fun c => at_domain (ln +:+ c)) f0 ].
End Patterns.

(** [motta_generate_permutations(first_name, last_name, domain, level)] *)
Definition motta_generate_permutations
    (first_name last_name domain : string) (level : Z) : Result (list string) :=
  let domain := lower domain in
  match collect (level1 first_name last_name domain) with
  | Raise e => Raise e
  | Ok permutations =>
      match (if 2 <=? level
             then rmap (app permutations) (collect (level2 first_name last_name domain))
             else Ok permutations) with
      | Raise e => Raise e
      | Ok permutations =>
          match (if 3 <=? level
                 then rmap (app permutations)
                           (collect (level3 first_name last_name domain))
                 else Ok permutations) with
          | Raise e => Raise e
          | Ok permutations => Ok (dict_fromkeys permutations)
          end
      end
  end.

(** [motta_validate_email_smtp(email, sender_email, mx_server, debug)] *)
Definition motta_validate_email_smtp
    (email sender_email mx_server : string) (debug : Z) : M bool :=
  try_except
    (when (1 <=? debug) (print (MsgConnecting mx_server)) ;;
     with_ (SMTP_connect mx_server) SMTP_exit
       (when (debug =? 2) SMTP_set_debuglevel ;;
        _ <- SMTP_helo "mottasec.com" ;;
        _ <- SMTP_mail sender_email ;;
        response <- SMTP_rcpt email ;;
        when (1 <=? debug) (print (MsgRcptResponse email response)) ;;
        ret (fst response =? 250)))
    (fun e =>
       when (1 <=? debug) (print (MsgSmtpError email e)) ;;
       ret false).

(** [check_email if check_email else f"info@{domain}"]: [None] and the
    empty string are both false. *)
Definition address_of_record (domain : string) (check_email : option string)
    : string :=
  match check_email with
  | Some (String c s) => String c s
  | _ => "info@" +:+ domain
  end.

(** [motta_validate_info_address(domain, sender_email, mx_server, debug,
    no_check, check_email)], returning [(is_valid, is_catch_all)]. *)
Definition motta_validate_info_address
    (domain sender_email mx_server : string) (debug : Z)
    (no_check : bool) (check_email : option string) : M (bool * bool) :=
  try_except
    (if no_check then
       when (1 <=? debug) (print MsgSkipCheck) ;;
       ret (true, false)
     else
       let test_email := address_of_record domain check_email in
       result <- motta_validate_email_smtp test_email sender_email mx_server debug ;;
       print MsgBlank ;;
       (if result : bool then print (MsgCheckValid test_email)
        else print (MsgInvalid test_email)) ;;
       print MsgBlank ;;
       random_string <- random_choices_join ;;
       let test_email := "mottasec-" +:+ random_string +:+ "@" +:+ domain in
       is_catch_all <- motta_validate_email_smtp test_email sender_email mx_server debug ;;
       when is_catch_all (print (MsgCatchAll domain)) ;;
       ret (result, is_catch_all))
    (fun e =>
       print (MsgInfoError e) ;;
       ret (false, false)).

(** The [for email in permutations] loop of
    [motta_validate_email_permutations], with [valid_count] as it stands
    when the loop reaches the remaining candidates; it returns the final
    count. *)
Fixpoint validate_loop (permutations : list string)
    (sender_email mx_server : string) (delay : Z * Z) (debug : Z)
    (valid_count : Z) : M Z :=
  match permutations with
  | [] => ret valid_count
  | email :: rest =>
      is_valid <- motta_validate_email_smtp email sender_email mx_server debug ;;
      print MsgBlank ;;
      valid_count <-
        (if is_valid : bool
         then (print (MsgFound email) ;; ret (valid_count + 1))
         else (print (MsgInvalid email) ;; ret valid_count)) ;;
      print MsgBlank ;;
      delay_duration <- random_uniform delay ;;
      print (MsgWaiting delay_duration) ;;
      time_sleep delay_duration ;;
      validate_loop rest sender_email mx_server delay debug valid_count
  end.

(** [motta_validate_email_permutations(permutations, domain, sender_email,
    delay, debug, no_check, check_email)].  [mx_records] is the list of
    the records' exchange names, so [mx_records[0].exchange.to_text()]
    is its head. *)
Definition motta_validate_email_permutations
    (permutations : list string) (domain sender_email : string)
    (delay : Z * Z) (debug : Z) (no_check : bool)
    (check_email : option string) : M unit :=
  try_except
    (mx_records <- dns_resolve domain ;;
     match mx_records with
     | [] => print (MsgNoMx domain)
     | mx_server :: _ =>
         when (1 <=? debug) (print (MsgFoundMx mx_server)) ;;
         verdicts <- motta_validate_info_address
                       domain sender_email mx_server debug no_check check_email ;;
         let '(info_valid, is_catch_all) := verdicts in
         if (negb info_valid || is_catch_all)%bool then ret tt
         else
           valid_count <- validate_loop permutations sender_email mx_server
                                        delay debug 0 ;;
           print (MsgSummary valid_count (Py.len permutations))
     end)
    (fun e => print (MsgMxError domain e)).

End EmailValidation.

(** ** Specification-side definitions *)

(** Removal of duplicates "by first-occurrence order", in the words of the
    specification: going through the list, an element is kept exactly when
    it is not among the elements [before] it. *)
Fixpoint first_occurrences_after (before l : list string) : list string :=
  match l with
  | [] => []
  | x :: rest =>
      (if bool_decide (x ∈ before) then [] else [x])
        ++ first_occurrences_after (before ++ [x]) rest
  end.

Definition first_occurrences (l : list string) : list string :=
  first_occurrences_after [] l.

(** The patterns the generator puts in its list before it removes the
    duplicates, for a level: those of level 1, then those of level 2 from
    level 2 on, then those of level 3 from level 3 on. *)
Definition patterns_upto (first_name last_name domain : string) (level : Z)
    : list (Result string) :=
  let d := EmailValidation.lower domain in
  EmailValidation.level1 first_name last_name d
    ++ (if 2 <=? level then EmailValidation.level2 first_name last_name d else [])
    ++ (if 3 <=? level then EmailValidation.level3 first_name last_name d else []).

(** ** Reading a list of events *)

(** The per-candidate result lines: ["... found: {email} is valid."] and
    ["... reports: {email} is invalid."], as [(email, accepted)]. *)
Definition result_of (e : event) : option (string * bool) :=
  match e with
  | EvPrint (MsgFound email) => Some (email, true)
  | EvPrint (MsgInvalid email) => Some (email, false)
  | _ => None
  end.

Definition results_of (evs : list event) : list (string * bool) :=
  omap result_of evs.

(** The SMTP sessions that were opened, by the server they went to. *)
Definition connection_of (e : event) : option string :=
  match e with EvConnect mx_server _ => Some mx_server | _ => None end.

Definition connections (evs : list event) : list string :=
  omap connection_of evs.

(** The RCPT TO commands that were sent, with what came back. *)
Definition rcpt_of (e : event) : option (string * Result reply) :=
  match e with EvRcpt email r => Some (email, r) | _ => None end.

Definition rcpt_replies (evs : list event) : list (string * Result reply) :=
  omap rcpt_of evs.

(** The synthetic local parts that were drawn for catch-all detection. *)
Definition choice_of (e : event) : option string :=
  match e with EvChoices s => Some s | _ => None end.

Definition choices (evs : list event) : list string := omap choice_of evs.

(** The lines that report on the run as a whole: the catch-all alert, the
    missing MX records, the failure and the summary. *)
Definition report_of (e : event) : option message :=
  match e with
  | EvPrint (MsgCatchAll d) => Some (MsgCatchAll d)
  | EvPrint (MsgNoMx d) => Some (MsgNoMx d)
  | EvPrint (MsgMxError d x) => Some (MsgMxError d x)
  | EvPrint (MsgSummary n t) => Some (MsgSummary n t)
  | _ => None
  end.

Definition reports (evs : list event) : list message := omap report_of evs.

(** Whether a library call raised. *)
Definition raised_in (e : event) : bool :=
  match e with
  | EvResolve _ (Raise _) | EvConnect _ (Raise _) | EvHelo _ (Raise _)
  | EvMail _ (Raise _) | EvRcpt _ (Raise _) | EvExit (Raise _) => true
  | _ => false
  end.

Definition raised (evs : list event) : bool := existsb raised_in evs.

(** How many of the results are acceptances. *)
Definition accepted_count (rs : list (string * bool)) : Z :=
  Py.len (filter (fun r => snd r = true) rs).

(** The events of a successful MX lookup, up to the address-of-record
    step. *)
Definition resolution_events (domain : string) (mx_records : list string)
    (debug : Z) : list event :=
  EvResolve domain (Ok mx_records)
    :: match mx_records with
       | mx_server :: _ =>
           if 1 <=? debug then [EvPrint (MsgFoundMx mx_server)] else []
       | [] => []
       end.

(** ** Worlds for the examples *)

(** A resolver that answers [mx_records] and a server that accepts every
    connection, answers HELO with [helo_reply], MAIL FROM with 250, RCPT TO
    with 250 for the addresses [accepts] holds for and with 550 for the
    others, and ends the session with [leave].  The random letters and the
    random draw are fixed. *)
Definition mail_world (mx_records : Result (list string))
    (helo_reply : Result reply) (accepts : string -> bool)
    (leave : Result unit) : World := {|
  resolve_mx := fun _ _ => mx_records;
  smtp_connect := fun _ _ => Ok tt;
  smtp_helo := fun _ _ => helo_reply;
  smtp_mail := fun _ _ => Ok (250, "OK");
  smtp_rcpt := fun _ email =>
    if accepts email then Ok (250, "OK") else Ok (550, "No such user");
  smtp_exit := fun _ => leave;
  random_choices := fun _ => "qwertyuiop";
  random_random := fun _ => UnitFraction 1 0
|}.

Definition example_mx : Result (list string) := Ok ["mx.example.com."].

(** The server knows [info@example.com] and [jdoe@example.com]. *)
Definition knows_info_and_jdoe (email : string) : bool :=
  bool_decide (email = "info@example.com") || bool_decide (email = "jdoe@example.com").

(** The server knows [jdoe@example.com] only. *)
Definition knows_jdoe (email : string) : bool :=
  bool_decide (email = "jdoe@example.com").

Definition ordinary_world : World :=
  mail_world example_mx (Ok (250, "Hello")) knows_info_and_jdoe (Ok tt).


Definition catch_all_world : World :=
  mail_world example_mx (Ok (250, "Hello")) (fun _ => true) (Ok tt).

Definition helo_refused_world : World :=
  mail_world example_mx (Ok (502, "Command not implemented")) knows_jdoe (Ok tt).

Definition quit_fails_world : World :=
  mail_world example_mx (Ok (250, "Hello")) knows_jdoe (Raise LibraryError).

Definition no_mx_world : World :=
  mail_world (Ok []) (Ok (250, "Hello")) knows_jdoe (Ok tt).

Definition nxdomain_world : World :=
  mail_world (Raise LibraryError) (Ok (250, "Hello")) knows_jdoe (Ok tt).

(** ** The SMTP commands of a run *)

(** The commands sent to the mail server, without what came back. *)
Inductive command : Type :=
  | CmdConnect (mx_server : string)
  | CmdHelo (name : string)
  | CmdMail (sender : string)
  | CmdRcpt (email : string)
  | CmdQuit.

Definition command_of (e : event) : option command :=
  match e with
  | EvConnect mx_server _ => Some (CmdConnect mx_server)
  | EvHelo name _ => Some (CmdHelo name)
  | EvMail sender _ => Some (CmdMail sender)
  | EvRcpt email _ => Some (CmdRcpt email)
  | EvExit _ => Some CmdQuit
  | _ => None
  end.

Definition commands (evs : list event) : list command := omap command_of evs.

(** The pauses that were taken, in seconds. *)
Definition sleep_of (e : event) : option Q :=
  match e with EvSleep secs => Some secs | _ => None end.

Definition sleeps (evs : list event) : list Q := omap sleep_of evs.

(** ** The regular expression of the scrapers *)

(** The part of Python's [re] that the scrapers use: a pattern is a
    sequence of literals and of [cls+] items, matched from left to right,
    a [cls+] taking as many characters as it can and giving back one at a
    time when the rest of the pattern does not match. *)
Module Re.

Inductive atom : Type :=
  | Lit (s : string)
  | Plus (cls : ascii -> bool).

(** [s] without its prefix [p], when [p] is a prefix of [s]. *)
Fixpoint strip_prefix (p s : string) : option string :=
  match p, s with
  | EmptyString, _ => Some s
  | String a p', String b s' => if Ascii.eqb a b then strip_prefix p' s' else None
  | String _ _, EmptyString => None
  end.

(** [cls+] followed by the pattern [k], at the start of [s]: the match
    and what is left of [s]. *)
Fixpoint plus_then (cls : ascii -> bool) (k : string -> option (string * string))
    (s : string) : option (string * string) :=
  match s with
  | String c s' =>
      if cls c then
        match plus_then cls k s' with
        | Some (m, rest) => Some (String c m, rest)
        | None =>
            match k s' with
            | Some (m, rest) => Some (String c m, rest)
            | None => None
            end
        end
      else None
  | EmptyString => None
  end.

(** The pattern at the start of [s]. *)
Fixpoint match_here (atoms : list atom) (s : string) : option (string * string) :=
  match atoms with
  | [] => Some (EmptyString, s)
  | Lit l :: atoms' =>
      match strip_prefix l s with
      | Some s' =>
          match match_here atoms' s' with
          | Some (m, rest) => Some (l +:+ m, rest)
          | None => None
          end
      | None => None
      end
  | Plus cls :: atoms' => plus_then cls (match_here atoms') s
  end.

(** [re.findall]: the matches from left to right; the search goes on
    where a match ends, [skip] being the characters of the last match that
    are still to be passed. *)
Fixpoint findall_from (skip : nat) (atoms : list atom) (s : string) : list string :=
  match s with
  | EmptyString => []
  | String _ s' =>
      match skip with
      | S skip' => findall_from skip' atoms s'
      | O =>
          match match_here atoms s with
          | Some (m, _) => m :: findall_from (String.length m - 1) atoms s'
          | None => findall_from 0 atoms s'
          end
      end
  end.

Definition findall (atoms : list atom) (s : string) : list string :=
  findall_from 0 atoms s.

End Re.

(** The class [[a-zA-Z0-9._%+-]]. *)
Definition local_char (c : ascii) : bool :=
  let n := nat_of_ascii c in
  (Nat.leb 97 n && Nat.leb n 122) || (Nat.leb 65 n && Nat.leb n 90)
  || (Nat.leb 48 n && Nat.leb n 57)
  || Ascii.eqb c "." || Ascii.eqb c "_" || Ascii.eqb c "%"
  || Ascii.eqb c "+" || Ascii.eqb c "-".

(** [email_regex = r"[a-zA-Z0-9._%+-]+@" + re.escape(domain)], the same in
    [motta_google_hunt], [motta_twitter_hunt] and [motta_linkedin_hunt];
    [re.escape] makes the domain a literal. *)
Definition email_regex (domain : string) : list Re.atom :=
  [Re.Plus local_char; Re.Lit "@"; Re.Lit domain].

(** [re.findall(email_regex, text)] *)
Definition find_emails (domain text : string) : list string :=
  Re.findall (email_regex domain) text.

(** Every character of [s] is in the class. *)
Fixpoint all_chars (cls : ascii -> bool) (s : string) : bool :=
  match s with
  | EmptyString => true
  | String c s' => cls c && all_chars cls s'
  end.

(** ** linkedin_scraper.py: the company name *)

Module Linkedin.

(** [s.split('.')] *)
Fixpoint split_dot (s : string) : list string :=
  match s with
  | EmptyString => [EmptyString]
  | String c s' =>
      if Ascii.eqb c "." then EmptyString :: split_dot s'
      else match split_dot s' with
           | h :: t => String c h :: t
           | [] => [String c EmptyString]
           end
  end.

(** ['.' in s] *)
Fixpoint contains_dot (s : string) : bool :=
  match s with
  | EmptyString => false
  | String c s' => Ascii.eqb c "." || contains_dot s'
  end.

(** [l[i]]: a negative index counts from the end; out of range it raises
    [IndexError]. *)
Definition getitem {A} (l : list A) (i : Z) : Result A :=
  let j := if i <? 0 then i + Py.len l else i in
  if j <? 0 then Raise IndexError
  else match l !! Z.to_nat j with
       | Some x => Ok x
       | None => Raise IndexError
       end.

(** The company name that [motta_linkedin_hunt] searches for (lines 148
    to 154).  The length of a label is its number of characters, which is
    what [len] counts on the ASCII strings of the embedding. *)
Definition company_name (domain : string) : Result string :=
  match getitem (split_dot domain) 0 with
  | Raise e => Raise e
  | Ok company_name =>
      if contains_dot domain && (2 <? Py.len (split_dot domain)) then
        let parts := split_dot domain in
        if 3 <=? Py.len parts then
          match getitem parts (-3) with
          | Raise e => Raise e
          | Ok label =>
              if 3 <? Z.of_nat (String.length label) then Ok label
              else Ok company_name
          end
        else Ok company_name
      else Ok company_name
  end.

End Linkedin.

(** ** harvester.py and the validation of scraped addresses *)

(** The lines that [harvester.py] and [motta_validate_scraped_emails]
    print and that [message] does not have: the banners of
    [validate_targets], the pause line of [_motta_pause], and the two lines
    of the loop over scraped addresses whose wording differs from the loop
    over permutations (["MottaSec Ghost confirms: {email} is valid."] and
    ["MottaSec Ghost is waiting ..."]). *)
Inductive hunter_message : Type :=
  | MsgRitual
  | MsgGenerating
  | MsgUsingPart (selected_part total_parts n : Z)
  | MsgValidatingPermutations
  | MsgValidatingHunted
  | MsgGhostConfirms (email : string)
  | MsgGhostWaiting (delay_duration : Q)
  | MsgStealthPause (delay : Q).

(** An event of the validation code, or one of these lines. *)
Inductive hunter_event : Type :=
  | EvOld (e : event)
  | EvHunterPrint (m : hunter_message).

Definition old_event (e : hunter_event) : option event :=
  match e with EvOld e => Some e | EvHunterPrint _ => None end.

(** What the resolver, the server and the random generator can depend on:
    the events of the validation code. *)
Definition old_of (hh : list hunter_event) : list event := omap old_event hh.

(** The monad of this code: as [M], over the wider events. *)
Definition H (A : Type) : Type :=
  World -> list hunter_event -> Result A * list hunter_event.

Module MonadH.

Definition hret {A} (a : A) : H A := fun _ _ => (Ok a, []).

Definition hbind {A B} (m : H A) (f : A -> H B) : H B :=
  fun w hh =>
    match m w hh with
    | (Ok a, e1) => let '(r, e2) := f a w (hh ++ e1) in (r, e1 ++ e2)
    | (Raise x, e1) => (Raise x, e1)
    end.

(** A result that was computed without any event. *)
Definition hresult {A} (r : Result A) : H A := fun _ _ => (r, []).

(** [try: body except Exception as e: handler e] *)
Definition htry {A} (body : H A) (handler : exception -> H A) : H A :=
  fun w hh =>
    match body w hh with
    | (Ok a, e1) => (Ok a, e1)
    | (Raise x, e1) => let '(r, e2) := handler x w (hh ++ e1) in (r, e1 ++ e2)
    end.

(** A computation of the validation code, run from here. *)
Definition lift {A} (m : M A) : H A :=
  fun w hh => let '(r, evs) := m w (old_of hh) in (r, map EvOld evs).

Definition hprint (m : hunter_message) : H unit :=
  fun _ _ => (Ok tt, [EvHunterPrint m]).

End MonadH.
Import MonadH.

Declare Scope hunter_scope.
Delimit Scope hunter_scope with hunter.
Notation "x <- m ;; k" := (hbind m (fun x => k))
  (at level 100, m at next level, right associativity) : hunter_scope.
Notation "m ;; k" := (hbind m (fun _ => k))
  (at level 100, right associativity) : hunter_scope.

Module Hunter.
Local Open Scope hunter_scope.

(** The [for email in emails] loop of [motta_validate_scraped_emails]. *)
Fixpoint scraped_loop (emails : list string)
    (sender_email mx_server : string) (delay : Z * Z) (debug : Z)
    (valid_count : Z) : H Z :=
  match emails with
  | [] => hret valid_count
  | email :: rest =>
      is_valid <- lift (EmailValidation.motta_validate_email_smtp
                          email sender_email mx_server debug) ;;
      lift (print MsgBlank) ;;
      valid_count <-
        (if is_valid : bool
         then (hprint (MsgGhostConfirms email) ;; hret (valid_count + 1))
         else (lift (print (MsgInvalid email)) ;; hret valid_count)) ;;
      lift (print MsgBlank) ;;
      delay_duration <- lift (random_uniform delay) ;;
      hprint (MsgGhostWaiting delay_duration) ;;
      lift (time_sleep delay_duration) ;;
      scraped_loop rest sender_email mx_server delay debug valid_count
  end.

(** [motta_validate_scraped_emails(emails, domain, sender_email, delay,
    debug, no_check, check_email)] of [email_validation.py]. *)
Definition motta_validate_scraped_emails
    (emails : list string) (domain sender_email : string)
    (delay : Z * Z) (debug : Z) (no_check : bool)
    (check_email : option string) : H unit :=
  htry
    (mx_records <- lift (dns_resolve domain) ;;
     match mx_records with
     | [] => lift (print (MsgNoMx domain))
     | mx_server :: _ =>
         lift (when (1 <=? debug) (print (MsgFoundMx mx_server))) ;;
         verdicts <- lift (EmailValidation.motta_validate_info_address
                             domain sender_email mx_server debug no_check check_email) ;;
         let '(info_valid, is_catch_all) := verdicts in
         if (negb info_valid || is_catch_all)%bool then hret tt
         else
           valid_count <- scraped_loop emails sender_email mx_server delay debug 0 ;;
           lift (print (MsgSummary valid_count (Py.len emails)))
     end)
    (fun e => lift (print (MsgMxError domain e))).

(** The attributes of [self.args] that [validate_targets] and
    [_motta_pause] read.  An attribute that the parser of the command does
    not define is [None]: [first_name], [last_name] and [part] on the
    [hunt] command ([part] is also [None] when [--part] is not given).
    [sender_email], when it is there, is a string. *)
Record Args : Type := {
  arg_domain : string;
  arg_debug : Z;
  arg_delay : Z * Z;
  arg_no_check : option bool;
  arg_check_email : option string;
  arg_sender_email : option string;
  arg_first_name : option string;
  arg_last_name : option string;
  arg_level : Z;
  arg_part : option Z;
  arg_total_parts : Z
}.

(** The truth value of a string: it is not empty. *)
Definition truthy (s : string) : bool :=
  match s with EmptyString => false | String _ _ => true end.

(** [hasattr(self.args, 'no_check') and self.args.no_check] *)
Definition no_check_of (args : Args) : bool :=
  match arg_no_check args with Some b => b | None => false end.

(** [MottaHunter.validate_targets(self)]; [emails] is [list(self.emails)],
    the hunted addresses in the order in which the set gives them. *)
Definition validate_targets (args : Args) (emails : list string) : H unit :=
  match arg_sender_email args with
  | None => hret tt
  | Some sender_email =>
      hprint MsgRitual ;;
      (match arg_first_name args, arg_last_name args with
       | Some first_name, Some last_name =>
           if truthy first_name && truthy last_name then
             hprint MsgGenerating ;;
             all_permutations <-
               hresult (EmailValidation.motta_generate_permutations
                          first_name last_name (arg_domain args) (arg_level args)) ;;
             permutations <-
               (match arg_part args with
                | Some selected_part =>
                    if selected_part =? 0 then hret all_permutations
                    else
                      permutations <-
                        hresult (Harvester._motta_split all_permutations
                                   (arg_total_parts args) selected_part) ;;
                      hprint (MsgUsingPart selected_part (arg_total_parts args)
                                           (Py.len permutations)) ;;
                      hret permutations
                | None => hret all_permutations
                end) ;;
             hprint MsgValidatingPermutations ;;
             lift (EmailValidation.motta_validate_email_permutations
                     permutations (arg_domain args) sender_email (arg_delay args)
                     (arg_debug args) (no_check_of args) (arg_check_email args))
           else hret tt
       | _, _ => hret tt
       end) ;;
      match emails with
      | [] => hret tt
      | _ :: _ =>
          hprint MsgValidatingHunted ;;
          motta_validate_scraped_emails emails (arg_domain args) sender_email
            (arg_delay args) (arg_debug args) (no_check_of args)
            (arg_check_email args)
      end
  end.


(** The test of [main] on the part: the [validate] command stops with an
    error when a part is given, is not 0, and lies outside
    [1 .. total_parts]. *)
Definition main_rejects_part (part : option Z) (total_parts : Z) : bool :=
  match part with
  | Some selected_part =>
      negb (selected_part =? 0)
      && negb ((1 <=? selected_part) && (selected_part <=? total_parts))
  | None => false
  end.

End Hunter.



(** Arguments of the [validate] command for the examples: John Doe at
    example.com, level 1, part 2 of 4. *)
Definition validate_args : Hunter.Args := {|
  Hunter.arg_domain := "example.com";
  Hunter.arg_debug := 0;
  Hunter.arg_delay := (20, 30);
  Hunter.arg_no_check := Some false;
  Hunter.arg_check_email := None;
  Hunter.arg_sender_email := Some "me@here.org";
  Hunter.arg_first_name := Some "John";
  Hunter.arg_last_name := Some "Doe";
  Hunter.arg_level := 1;
  Hunter.arg_part := Some 2;
  Hunter.arg_total_parts := 4
|}.

(** ** The strings of the embedding *)

(** The ASCII strings: every code point is below 128. *)
Fixpoint is_ascii (s : string) : bool :=
  match s with
  | EmptyString => true
  | String c s' => Nat.ltb (nat_of_ascii c) 128 && is_ascii s'
  end.

(** ** The probe and the candidate loop as the specification has them *)

(** The calls of SMTP sessions among the events, with what came back. *)
Definition smtp_call (e : event) : option event :=
  match e with
  | EvConnect _ _ | EvHelo _ _ | EvMail _ _ | EvRcpt _ _ | EvExit _ => Some e
  | _ => None
  end.

Definition smtp_calls (evs : list event) : list event := omap smtp_call evs.

(** [answered w h evs]: every call among the events [evs], which follow
    the events [h], carries the answer that the world [w] gives at that
    point. *)
Fixpoint answered (w : World) (h evs : list event) : Prop :=
  match evs with
  | [] => True
  | e :: rest =>
      match e with
      | EvResolve domain r => r = resolve_mx w h domain
      | EvConnect mx_server r => r = smtp_connect w h mx_server
      | EvHelo name r => r = smtp_helo w h name
      | EvMail sender r => r = smtp_mail w h sender
      | EvRcpt email r => r = smtp_rcpt w h email
      | EvExit r => r = smtp_exit w h
      | EvChoices random_string => random_string = random_choices w h
      | EvRandom r => r = random_random w h
      | EvSetDebuglevel | EvSleep _ | EvPrint _ => True
      end
      /\ answered w (h ++ [e]) rest
  end.

(** The sessions that a probe of [email] can have, and the verdict of
    each: the state machine of the specification (connect, greet, sender,
    recipient, verdict, teardown), with the two points at which the code
    departs from its wording.  The replies to HELO and to MAIL FROM are
    any replies: their codes are not looked at.  And a teardown that
    raises makes the verdict a rejection. *)
Inductive probe_session (email sender_email mx_server : string)
    : list event -> bool -> Prop :=
  | session_refused (e : exception) :
      probe_session email sender_email mx_server
        [ EvConnect mx_server (Raise e) ] false
  | session_greet_fails (e : exception) (leave : Result unit) :
      probe_session email sender_email mx_server
        [ EvConnect mx_server (Ok tt);
          EvHelo "mottasec.com" (Raise e);
          EvExit leave ] false
  | session_sender_fails (greeting : reply) (e : exception) (leave : Result unit) :
      probe_session email sender_email mx_server
        [ EvConnect mx_server (Ok tt);
          EvHelo "mottasec.com" (Ok greeting);
          EvMail sender_email (Raise e);
          EvExit leave ] false
  | session_recipient_fails (greeting sender_reply : reply) (e : exception)
      (leave : Result unit) :
      probe_session email sender_email mx_server
        [ EvConnect mx_server (Ok tt);
          EvHelo "mottasec.com" (Ok greeting);
          EvMail sender_email (Ok sender_reply);
          EvRcpt email (Raise e);
          EvExit leave ] false
  | session_teardown_fails (greeting sender_reply recipient_reply : reply)
      (e : exception) :
      probe_session email sender_email mx_server
        [ EvConnect mx_server (Ok tt);
          EvHelo "mottasec.com" (Ok greeting);
          EvMail sender_email (Ok sender_reply);
          EvRcpt email (Ok recipient_reply);
          EvExit (Raise e) ] false
  | session_complete (greeting sender_reply recipient_reply : reply) :
      probe_session email sender_email mx_server
        [ EvConnect mx_server (Ok tt);
          EvHelo "mottasec.com" (Ok greeting);
          EvMail sender_email (Ok sender_reply);
          EvRcpt email (Ok recipient_reply);
          EvExit (Ok tt) ]
        (fst recipient_reply =? 250).


(** ** The naming patterns written out *)

(** The eighteen patterns of the generator, six per level, as the
    addresses they give for a first name, a last name and a domain: with
    [f] and [l] the names in lower case, [fi] and [li] their first
    characters and [f3] and [l3] their first three. *)
Section Naming.
Variables first_name last_name domain : string.

Let f := EmailValidation.lower first_name.
Let l := EmailValidation.lower last_name.
Let fi := EmailValidation.lower (substring 0 1 first_name).
Let li := EmailValidation.lower (substring 0 1 last_name).
Let f3 := EmailValidation.lower (substring 0 3 first_name).
Let l3 := EmailValidation.lower (substring 0 3 last_name).
Let address (local : string) : string :=
  local +:+ "@" +:+ EmailValidation.lower domain.

Definition light_patterns : list string :=
  map address
    [ f +:+ l; f +:+ "." +:+ l; fi +:+ l; fi +:+ "." +:+ l; fi +:+ "_" +:+ l;
      f +:+ "-" +:+ l ].

Definition medium_patterns : list string :=
  map address
    [ f; l; f +:+ "_" +:+ l; l +:+ "." +:+ f; l +:+ "_" +:+ f; l +:+ f ].

Definition heavy_patterns : list string :=
  map address
    [ fi +:+ l3; fi +:+ "." +:+ l3; f3 +:+ li; l3 +:+ fi; f +:+ li; l +:+ fi ].

(** The patterns of a level: the light ones, the medium ones from level 2
    on, the heavy ones from level 3 on. *)
Definition naming_patterns (level : Z) : list string :=
  light_patterns
    ++ (if 2 <=? level then medium_patterns else [])
    ++ (if 3 <=? level then heavy_patterns else []).

End Naming.

(** * Properties *)

(** ** Partitioning ([_motta_split]) *)

Section Split.
Import Harvester.
Context {A : Type}.
Implicit Types (l : list A) (n t k : Z).

Lemma len_nonneg l : 0 <= Py.len l.
Proof. unfold Py.len. lia. Qed.

(** Between bounds that lie in the list, a slice is a [take] of a [drop]. *)
Lemma slice_within l (lo hi : Z) :
  0 <= lo <= hi -> hi <= Py.len l ->
  Py.slice l lo hi = take (Z.to_nat (hi - lo)) (drop (Z.to_nat lo) l).
Proof.
  intros Hlo Hhi. unfold Py.slice, Py.clamp.
  destruct (Z.ltb_spec lo 0); [lia|].
  destruct (Z.ltb_spec hi 0); [lia|].
  rewrite !Z.min_l by lia.
  rewrite take_drop_commute. f_equal. f_equal. lia.
Qed.

Lemma part_end n t k :
  part_start n t k + part_len n t k = k * (n / t) + Z.min k (n mod t).
Proof.
  unfold part_start, part_len.
  destruct (Z.leb_spec k (n mod t)); lia.
Qed.

Lemma part_start_succ n t k :
  part_start n t (k + 1) = part_start n t k + part_len n t k.
Proof. rewrite part_end. unfold part_start. f_equal; [f_equal|]; lia. Qed.

Lemma part_start_first n t : 0 < t -> 0 <= n -> part_start n t 1 = 0.
Proof.
  intros Ht Hn. unfold part_start.
  pose proof (Z.mod_pos_bound n t Ht). lia.
Qed.

Lemma part_end_last n t : 0 < t -> part_start n t t + part_len n t t = n.
Proof.
  intros Ht. rewrite part_end.
  pose proof (Z.mod_pos_bound n t Ht).
  pose proof (Z.div_mod n t). lia.
Qed.

Lemma part_len_nonneg n t k : 0 < t -> 0 <= n -> 0 <= part_len n t k.
Proof.
  intros Ht Hn. unfold part_len.
  pose proof (Z.div_pos n t Hn Ht).
  destruct (k <=? n mod t); lia.
Qed.

Lemma part_start_nonneg n t k : 0 < t -> 0 <= n -> 1 <= k -> 0 <= part_start n t k.
Proof.
  intros Ht Hn Hk. unfold part_start.
  pose proof (Z.div_pos n t Hn Ht).
  pose proof (Z.mod_pos_bound n t Ht). nia.
Qed.

(** Parts come one after the other: an earlier part ends before a later
    one begins. *)
Lemma part_end_mono n t j k :
  0 < t -> 0 <= n -> j < k ->
  part_start n t j + part_len n t j <= part_start n t k.
Proof.
  intros Ht Hn Hjk. rewrite part_end. unfold part_start.
  pose proof (Z.div_pos n t Hn Ht). nia.
Qed.

Lemma part_end_bound n t k :
  0 < t -> 0 <= n -> k <= t -> part_start n t k + part_len n t k <= n.
Proof.
  intros Ht Hn Hk.
  destruct (Z.eq_dec k t) as [->|Hne]; [rewrite part_end_last; lia|].
  etrans; [apply (part_end_mono n t k t); lia|].
  pose proof (part_end_last n t Ht).
  pose proof (part_len_nonneg n t t Ht Hn). lia.
Qed.

(** What the method returns for a part number in range. *)
Lemma motta_split_in_range l t k :
  1 <= k <= t ->
  _motta_split l t k =
    Ok (take (Z.to_nat (part_len (Py.len l) t k))
             (drop (Z.to_nat (part_start (Py.len l) t k)) l)).
Proof.
  intros Hk. unfold _motta_split.
  destruct (Z.leb_spec 1 k); [|lia].
  destruct (Z.leb_spec k t); [|lia].
  cbn [andb negb]. f_equal.
  pose proof (len_nonneg l) as Hn.
  assert (Ht : 0 < t) by lia.
  pose proof (part_len_nonneg (Py.len l) t k Ht Hn) as Hlen.
  pose proof (part_start_nonneg (Py.len l) t k Ht Hn ltac:(lia)) as Hst.
  pose proof (part_end_bound (Py.len l) t k Ht Hn ltac:(lia)) as Hend.
  unfold part_len, part_start in *.
  rewrite slice_within by lia.
  f_equal. f_equal. lia.
Qed.

(** The parts from number [k] on, put together, are the list from where
    part [k] begins. *)
Lemma concat_parts_from l t (m : nat) k :
  0 < t -> 1 <= k -> k + Z.of_nat m = t + 1 ->
  concat (map (fun j => take (Z.to_nat (part_len (Py.len l) t j))
                          (drop (Z.to_nat (part_start (Py.len l) t j)) l))
              (seqZ k (Z.of_nat m)))
  = drop (Z.to_nat (part_start (Py.len l) t k)) l.
Proof.
  intros Ht. revert k. induction m as [|m IH]; intros k Hk Hsum.
  - cbn. symmetry. apply drop_ge.
    assert (k = t + 1) as -> by lia.
    rewrite part_start_succ, part_end_last by lia.
    unfold Py.len. lia.
  - rewrite Nat2Z.inj_succ, seqZ_cons by lia. cbn [map concat].
    replace (Z.pred (Z.succ (Z.of_nat m))) with (Z.of_nat m) by lia.
    rewrite (IH (Z.succ k)) by lia.
    replace (Z.succ k) with (k + 1) by lia.
    rewrite part_start_succ.
    pose proof (len_nonneg l) as Hn.
    pose proof (part_len_nonneg (Py.len l) t k Ht Hn).
    pose proof (part_start_nonneg (Py.len l) t k Ht Hn Hk).
    rewrite Z2Nat.inj_add by lia.
    rewrite <- drop_drop.
    apply take_drop.
Qed.

End Split.

(** The test of the repository: ten items in four parts. *)
Example split_10_4 :
  map (Harvester._motta_split [1;2;3;4;5;6;7;8;9;10] 4) (Harvester.part_numbers 4)
  = [Ok [1;2;3]; Ok [4;5;6]; Ok [7;8]; Ok [9;10]].
Proof. reflexivity. Qed.

(** C1. For a list of [N] candidates and [total_parts >= 1]: for every
    [selected_part] from 1 to [total_parts], [_motta_split] returns the
    block of the list that begins at position [part_start] and has
    [N // total_parts] elements, plus one when
    [selected_part <= N % total_parts]; the first block begins at 0, each
    block begins where the previous one ends, an earlier block ends before
    a later one begins, and the last block ends at [N]; and the slices of
    the parts [1 .. total_parts], concatenated in part order, are the
    list. *)
Theorem motta_split_partition {A} (l : list A) (total_parts : Z) :
  1 <= total_parts ->
  let n := Py.len l in
  (forall k, 1 <= k <= total_parts ->
     exists s,
       Harvester._motta_split l total_parts k = Ok s /\
       s = take (Z.to_nat (Harvester.part_len n total_parts k))
                (drop (Z.to_nat (Harvester.part_start n total_parts k)) l) /\
       Py.len s = n / total_parts + (if k <=? n mod total_parts then 1 else 0) /\
       0 <= Harvester.part_start n total_parts k /\
       Harvester.part_start n total_parts k + Py.len s <= n /\
       Harvester.part_start n total_parts (k + 1)
         = Harvester.part_start n total_parts k + Py.len s /\
       (forall j, 1 <= j < k ->
          Harvester.part_start n total_parts j + Harvester.part_len n total_parts j
            <= Harvester.part_start n total_parts k)) /\
  Harvester.part_start n total_parts 1 = 0 /\
  Harvester.part_start n total_parts (total_parts + 1) = n /\
  exists slices,
    map (Harvester._motta_split l total_parts) (Harvester.part_numbers total_parts)
      = map Ok slices /\
    concat slices = l.
Proof.
  intros Ht n.
  assert (Hpos : 0 < total_parts) by lia.
  pose proof (len_nonneg l) as Hn. fold n in Hn.
  split; [|split; [|split]].
  - intros k Hk. eexists. split; [apply motta_split_in_range; exact Hk|].
    fold n.
    pose proof (part_len_nonneg n total_parts k Hpos Hn) as Hlen.
    pose proof (part_start_nonneg n total_parts k Hpos Hn ltac:(lia)) as Hst.
    pose proof (part_end_bound n total_parts k Hpos Hn ltac:(lia)) as Hend.
    assert (Hsz : Py.len (take (Z.to_nat (Harvester.part_len n total_parts k))
                    (drop (Z.to_nat (Harvester.part_start n total_parts k)) l))
                  = Harvester.part_len n total_parts k).
    { unfold Py.len at 1. rewrite length_take, length_drop.
      unfold n, Py.len in *. lia. }
    split; [reflexivity|]. rewrite Hsz.
    split; [reflexivity|].
    split; [exact Hst|]. split; [exact Hend|].
    split; [apply part_start_succ|].
    intros j Hj. apply part_end_mono; lia.
  - apply part_start_first; lia.
  - rewrite part_start_succ. apply part_end_last; lia.
  - exists (map (fun j => take (Z.to_nat (Harvester.part_len n total_parts j))
                            (drop (Z.to_nat (Harvester.part_start n total_parts j)) l))
                (Harvester.part_numbers total_parts)).
    split.
    + rewrite map_map. apply map_ext_in. intros k Hk.
      apply motta_split_in_range.
      unfold Harvester.part_numbers in Hk.
      apply list_elem_of_In, elem_of_seqZ in Hk. lia.
    + unfold Harvester.part_numbers.
      replace (seqZ 1 total_parts)
        with (seqZ 1 (Z.of_nat (Z.to_nat total_parts))) by (f_equal; lia).
      unfold n. rewrite (concat_parts_from l total_parts) by lia.
      rewrite part_start_first by lia. reflexivity.
Qed.

Lemma motta_split_partition_witness :
  (forall k, 1 <= k <= 4 ->
     exists s,
       Harvester._motta_split [1;2;3;4;5;6;7;8;9;10] 4 k = Ok s /\
       s = take (Z.to_nat (Harvester.part_len 10 4 k))
                (drop (Z.to_nat (Harvester.part_start 10 4 k)) [1;2;3;4;5;6;7;8;9;10]) /\
       Py.len s = 10 / 4 + (if k <=? 10 mod 4 then 1 else 0) /\
       0 <= Harvester.part_start 10 4 k /\
       Harvester.part_start 10 4 k + Py.len s <= 10 /\
       Harvester.part_start 10 4 (k + 1) = Harvester.part_start 10 4 k + Py.len s /\
       (forall j, 1 <= j < k ->
          Harvester.part_start 10 4 j + Harvester.part_len 10 4 j
            <= Harvester.part_start 10 4 k)) /\
  Harvester.part_start 10 4 1 = 0 /\
  Harvester.part_start 10 4 (4 + 1) = 10 /\
  exists slices,
    map (Harvester._motta_split [1;2;3;4;5;6;7;8;9;10] 4) (Harvester.part_numbers 4)
      = map Ok slices /\
    concat slices = [1;2;3;4;5;6;7;8;9;10].
Proof.
  apply (motta_split_partition [1;2;3;4;5;6;7;8;9;10] 4). lia.
Defined.

(** C6. Whatever the list and [total_parts], a [selected_part] outside
    [1 .. total_parts] makes [_motta_split] raise [ValueError] and return no
    slice; so does part 4 of 3. *)
Theorem motta_split_out_of_range {A} (l : list A) (total_parts selected_part : Z) :
  ~ (1 <= selected_part <= total_parts) ->
  Harvester._motta_split l total_parts selected_part = Raise ValueError.
Proof.
  intros Hout. unfold Harvester._motta_split.
  destruct (Z.leb_spec 1 selected_part); [|reflexivity].
  destruct (Z.leb_spec selected_part total_parts); [lia|reflexivity].
Qed.

Lemma motta_split_out_of_range_witness :
  Harvester._motta_split ["email1@test.com"; "email2@test.com"] 3 4
  = Raise ValueError.
Proof.
  apply (motta_split_out_of_range ["email1@test.com"; "email2@test.com"] 3 4). lia.
Defined.


(** ** The permutation generator *)

Section Generator.
Import EmailValidation.

Lemma fromkeys_fold_spec (l keys before : list string) :
  (forall x, x ∈ keys <-> x ∈ before) ->
  fold_left add_key l keys = keys ++ first_occurrences_after before l.
Proof.
  revert keys before.
  induction l as [|x l IH]; intros keys before Hsame;
    cbn [fold_left first_occurrences_after].
  - by rewrite app_nil_r.
  - unfold add_key at 2.
    destruct (decide (x ∈ keys)) as [Hin|Hout].
    + rewrite (bool_decide_true (x ∈ keys)) by exact Hin.
      rewrite (bool_decide_true (x ∈ before)) by (apply Hsame; exact Hin).
      cbn [app]. apply IH. intros y.
      rewrite elem_of_app, list_elem_of_singleton.
      pose proof (Hsame y) as Hy. split; [tauto|].
      intros [Hb| ->]; tauto.
    + rewrite (bool_decide_false (x ∈ keys)) by exact Hout.
      rewrite (bool_decide_false (x ∈ before))
        by (intros Hb; apply Hout, Hsame; exact Hb).
      rewrite (IH (keys ++ [x]) (before ++ [x])).
      * by rewrite <- app_assoc.
      * intros y. rewrite !elem_of_app. pose proof (Hsame y). tauto.
Qed.

(** The keys of [dict.fromkeys] are the first occurrences. *)
Lemma dict_fromkeys_first_occurrences (l : list string) :
  dict_fromkeys l = first_occurrences l.
Proof.
  unfold dict_fromkeys, first_occurrences.
  by rewrite (fromkeys_fold_spec l [] []).
Qed.

Lemma fromkeys_fold_NoDup (l keys : list string) :
  NoDup keys -> NoDup (fold_left add_key l keys).
Proof.
  revert keys. induction l as [|x l IH]; intros keys Hnd; cbn; [done|].
  apply IH. unfold add_key.
  destruct (decide (x ∈ keys)) as [Hin|Hout].
  - by rewrite bool_decide_true.
  - rewrite bool_decide_false by exact Hout.
    apply NoDup_app. split; [exact Hnd|]. split.
    + intros y Hy Hx. apply list_elem_of_singleton in Hx. by subst.
    + apply NoDup_singleton.
Qed.

Lemma fromkeys_fold_elem (l keys : list string) (x : string) :
  x ∈ fold_left add_key l keys <-> x ∈ keys \/ x ∈ l.
Proof.
  revert keys. induction l as [|y l IH]; intros keys; cbn.
  - rewrite elem_of_nil. tauto.
  - rewrite IH, elem_of_cons. unfold add_key.
    destruct (decide (y ∈ keys)) as [Hin|Hout].
    + rewrite bool_decide_true by exact Hin.
      split; [tauto|]. intros [Hk|[->|Hl]]; tauto.
    + rewrite bool_decide_false by exact Hout.
      rewrite elem_of_app, list_elem_of_singleton. tauto.
Qed.

Lemma fromkeys_fold_prefix (l keys : list string) :
  keys `prefix_of` fold_left add_key l keys.
Proof.
  revert keys. induction l as [|y l IH]; intros keys; cbn; [done|].
  etrans; [|apply IH]. unfold add_key.
  destruct (bool_decide (y ∈ keys)); [done|].
  by apply prefix_app_r.
Qed.

Lemma dict_fromkeys_NoDup (l : list string) : NoDup (dict_fromkeys l).
Proof. apply (fromkeys_fold_NoDup l []), NoDup_nil_2. Qed.

Lemma dict_fromkeys_elem (l : list string) (x : string) :
  x ∈ dict_fromkeys l <-> x ∈ l.
Proof.
  unfold dict_fromkeys.
  rewrite fromkeys_fold_elem, elem_of_nil. tauto.
Qed.

(** Extending the input only extends the output. *)
Lemma dict_fromkeys_app_prefix (l l' : list string) :
  dict_fromkeys l `prefix_of` dict_fromkeys (l ++ l').
Proof.
  unfold dict_fromkeys.
  rewrite fold_left_app. apply fromkeys_fold_prefix.
Qed.

Lemma collect_app {A} (xs ys : list (Result A)) :
  collect (xs ++ ys) =
    match collect xs with
    | Ok l => rmap (app l) (collect ys)
    | Raise e => Raise e
    end.
Proof.
  induction xs as [|[x|e] xs IH]; cbn [app collect].
  - by destruct (collect ys).
  - rewrite IH. destruct (collect xs); [|done]. by destruct (collect ys).
  - done.
Qed.

(** The generator removes the duplicates of the patterns of its level. *)
Lemma generate_from_patterns (first_name last_name domain : string) (level : Z) :
  motta_generate_permutations first_name last_name domain level
  = rmap dict_fromkeys (collect (patterns_upto first_name last_name domain level)).
Proof.
  unfold motta_generate_permutations, patterns_upto.
  rewrite collect_app.
  destruct (collect (level1 _ _ _)) as [p1|e]; [|done].
  rewrite collect_app.
  destruct (2 <=? level); cbn [collect rmap].
  - destruct (collect (level2 _ _ _)) as [p2|e]; cbn [rmap]; [|done].
    destruct (3 <=? level); cbn [collect rmap].
    + destruct (collect (level3 _ _ _)) as [p3|e]; cbn [rmap]; [|done].
      by rewrite app_assoc.
    + by rewrite app_nil_r.
  - destruct (3 <=? level); cbn [collect rmap].
    + by destruct (collect (level3 _ _ _)) as [p3|e]; cbn [rmap].
    + by rewrite app_nil_r.
Qed.

(** With both names non-empty no pattern raises. *)
Lemma patterns_defined (first_name last_name domain : string) (level : Z) :
  first_name <> "" -> last_name <> "" ->
  exists raw, collect (patterns_upto first_name last_name domain level) = Ok raw.
Proof.
  intros Hf Hl.
  destruct first_name as [|c1 s1]; [done|].
  destruct last_name as [|c2 s2]; [done|].
  unfold patterns_upto.
  destruct (2 <=? level), (3 <=? level); eexists; reflexivity.
Qed.

End Generator.

Example permutations_john_doe_1 :
  EmailValidation.motta_generate_permutations "John" "Doe" "example.com" 1
  = Ok [ "johndoe@example.com"; "john.doe@example.com"; "jdoe@example.com";
         "j.doe@example.com"; "j_doe@example.com"; "john-doe@example.com" ].
Proof. vm_compute. reflexivity. Qed.

(** [s[:n]] with the library's [substring]. *)
Lemma substring_take (n : nat) (s : string) : substring 0 n s = Py.str_take n s.
Proof.
  revert s. induction n as [|n IH]; intros [|c s]; cbn; try done.
  by rewrite IH.
Qed.

Lemma length_append (a b : string) :
  String.length (a +:+ b) = (String.length a + String.length b)%nat.
Proof. induction a as [|c a IH]; simpl; [done|]. by rewrite IH. Qed.

(** What [collect] returns are the values of the items, one for one. *)

(** For non-empty names the patterns of the code are the patterns written
    out, and none of them raises. *)
Lemma naming_patterns_collect (first_name last_name domain : string) (level : Z) :
  first_name <> "" -> last_name <> "" ->
  EmailValidation.collect (patterns_upto first_name last_name domain level)
  = Ok (naming_patterns first_name last_name domain level).
Proof.
  intros Hf Hl.
  destruct first_name as [|c1 s1]; [done|].
  destruct last_name as [|c2 s2]; [done|].
  unfold patterns_upto, naming_patterns, light_patterns, medium_patterns,
    heavy_patterns.
  rewrite !substring_take.
  destruct (2 <=? level), (3 <=? level); reflexivity.
Qed.

(** The keys of a longer list are the keys of its beginning, followed by
    the first occurrences of what is new in the rest. *)
Lemma dict_fromkeys_app (a b : list string) :
  EmailValidation.dict_fromkeys (a ++ b)
  = EmailValidation.dict_fromkeys a
      ++ first_occurrences_after (EmailValidation.dict_fromkeys a) b.
Proof.
  unfold EmailValidation.dict_fromkeys at 1. rewrite fold_left_app.
  by apply fromkeys_fold_spec.
Qed.

Lemma first_occurrences_after_elem (before l : list string) (x : string) :
  x ∈ first_occurrences_after before l -> x ∈ l.
Proof.
  revert before. induction l as [|y l IH]; intros before; cbn; [done|].
  rewrite elem_of_app, elem_of_cons.
  destruct (bool_decide (y ∈ before)).
  - rewrite elem_of_nil. intros [[]|Hx]. right. by apply (IH _ Hx).
  - rewrite list_elem_of_singleton. intros [->|Hx]; [by left|].
    right. by apply (IH _ Hx).
Qed.

(** The address of the last name alone is longer than no light pattern:
    it is not among them. *)
Lemma last_name_alone_new (first_name last_name domain : string) :
  first_name <> "" ->
  EmailValidation.lower last_name +:+ "@" +:+ EmailValidation.lower domain
    ∉ light_patterns first_name last_name domain.
Proof.
  intros Hf Hx. destruct first_name as [|c1 s1]; [done|].
  unfold light_patterns in Hx. cbn [map substring] in Hx.
  repeat (apply elem_of_cons in Hx as [Hx|Hx];
          [apply (f_equal String.length) in Hx;
           rewrite !length_append in Hx; simpl in Hx; lia|]).
  by apply elem_of_nil in Hx.
Qed.

(** C9, as amended. For non-empty first and last names and any domain, the
    generator returns, at every level, the patterns of the level with
    duplicates removed by first occurrence, a list without repetition.
    The list of level 2 is the list of level 1 followed by at least one
    more address, taken from the medium patterns, and the list of level 3
    is the list of level 2 followed by addresses of the heavy patterns,
    which may be none. *)
Theorem generate_permutations_distinct_monotone
    (first_name last_name domain : string) :
  first_name <> "" -> last_name <> "" ->
  (forall level,
     EmailValidation.motta_generate_permutations first_name last_name domain level
       = Ok (first_occurrences (naming_patterns first_name last_name domain level)) /\
     NoDup (first_occurrences (naming_patterns first_name last_name domain level))) /\
  exists p1 more2 more3,
    EmailValidation.motta_generate_permutations first_name last_name domain 1
      = Ok p1 /\
    EmailValidation.motta_generate_permutations first_name last_name domain 2
      = Ok (p1 ++ more2) /\
    EmailValidation.motta_generate_permutations first_name last_name domain 3
      = Ok (p1 ++ more2 ++ more3) /\
    more2 <> [] /\
    (forall x, x ∈ more2 -> x ∈ medium_patterns first_name last_name domain) /\
    (forall x, x ∈ more3 -> x ∈ heavy_patterns first_name last_name domain).
Proof.
  intros Hf Hl.
  assert (Hgen : forall level,
            EmailValidation.motta_generate_permutations first_name last_name domain level
            = Ok (EmailValidation.dict_fromkeys
                    (naming_patterns first_name last_name domain level))).
  { intros level.
    by rewrite generate_from_patterns, naming_patterns_collect. }
  split.
  - intros level. rewrite Hgen, dict_fromkeys_first_occurrences.
    split; [done|]. rewrite <- dict_fromkeys_first_occurrences.
    apply dict_fromkeys_NoDup.
  - set (light := light_patterns first_name last_name domain).
    set (medium := medium_patterns first_name last_name domain).
    set (heavy := heavy_patterns first_name last_name domain).
    set (p1 := EmailValidation.dict_fromkeys light).
    set (more2 := first_occurrences_after p1 medium).
    set (more3 := first_occurrences_after (p1 ++ more2) heavy).
    assert (E2 : EmailValidation.dict_fromkeys (light ++ medium) = p1 ++ more2)
      by apply dict_fromkeys_app.
    assert (E3 : EmailValidation.dict_fromkeys (light ++ medium ++ heavy)
                 = p1 ++ more2 ++ more3).
    { rewrite app_assoc, dict_fromkeys_app, E2. by rewrite <- app_assoc. }
    exists p1, more2, more3. rewrite !Hgen.
    unfold naming_patterns. cbn [Z.leb Z.compare Pos.compare Pos.compare_cont].
    fold light medium heavy. rewrite !app_nil_r, E2, E3.
    split; [done|]. split; [done|]. split; [done|]. split.
    + intros Hnone.
      assert (Hin : EmailValidation.lower last_name +:+ "@"
                      +:+ EmailValidation.lower domain ∈ p1 ++ more2).
      { rewrite <- E2. apply dict_fromkeys_elem, elem_of_app. right.
        subst medium. unfold medium_patterns. cbn [map].
        apply elem_of_cons. right. apply elem_of_cons. by left. }
      rewrite Hnone, app_nil_r in Hin.
      apply (proj1 (dict_fromkeys_elem _ _)) in Hin.
      by apply (last_name_alone_new first_name last_name domain Hf).
    + split; intros x Hx; by apply first_occurrences_after_elem in Hx.
Qed.

Lemma generate_permutations_distinct_monotone_witness :
  (forall level,
     EmailValidation.motta_generate_permutations "John" "Doe" "example.com" level
       = Ok (first_occurrences (naming_patterns "John" "Doe" "example.com" level)) /\
     NoDup (first_occurrences (naming_patterns "John" "Doe" "example.com" level))) /\
  exists p1 more2 more3,
    EmailValidation.motta_generate_permutations "John" "Doe" "example.com" 1
      = Ok p1 /\
    EmailValidation.motta_generate_permutations "John" "Doe" "example.com" 2
      = Ok (p1 ++ more2) /\
    EmailValidation.motta_generate_permutations "John" "Doe" "example.com" 3
      = Ok (p1 ++ more2 ++ more3) /\
    more2 <> [] /\
    (forall x, x ∈ more2 -> x ∈ medium_patterns "John" "Doe" "example.com") /\
    (forall x, x ∈ more3 -> x ∈ heavy_patterns "John" "Doe" "example.com").
Proof.
  apply (generate_permutations_distinct_monotone "John" "Doe" "example.com");
    discriminate.
Defined.

(** C9, as stated, fails: level 3 need not extend level 2.  For the
    one-letter names J and D every heavy pattern is the address of a light
    or of a medium pattern, so that level 3 returns the nine addresses of
    level 2 and no additional one. *)
Lemma generate_permutations_distinct_monotone_counterexample :
  EmailValidation.motta_generate_permutations "J" "D" "x.io" 2
    = Ok [ "jd@x.io"; "j.d@x.io"; "j_d@x.io"; "j-d@x.io";
           "j@x.io"; "d@x.io"; "d.j@x.io"; "d_j@x.io"; "dj@x.io" ] /\
  EmailValidation.motta_generate_permutations "J" "D" "x.io" 3
    = Ok [ "jd@x.io"; "j.d@x.io"; "j_d@x.io"; "j-d@x.io";
           "j@x.io"; "d@x.io"; "d.j@x.io"; "d_j@x.io"; "dj@x.io" ] /\
  heavy_patterns "J" "D" "x.io"
    = [ "jd@x.io"; "j.d@x.io"; "jd@x.io"; "dj@x.io"; "jd@x.io"; "dj@x.io" ].
Proof. repeat split; vm_compute; reflexivity. Qed.

(** C10. With an empty first name the generator raises [IndexError] at
    every level.  With a non-empty first name and an empty last name it
    returns a list at levels 1 and 2 (at every level below 3) and raises
    [IndexError] at level 3 (at every level from 3 on). *)
Theorem generate_permutations_empty_names
    (first_name last_name domain : string) (level : Z) :
  EmailValidation.motta_generate_permutations "" last_name domain level
    = Raise IndexError /\
  (first_name <> "" ->
     (level < 3 ->
        exists out,
          EmailValidation.motta_generate_permutations first_name "" domain level = Ok out) /\
     (3 <= level ->
        EmailValidation.motta_generate_permutations first_name "" domain level
          = Raise IndexError)).
Proof.
  split; [reflexivity|].
  intros Hf. destruct first_name as [|c s]; [done|].
  unfold EmailValidation.motta_generate_permutations.
  cbn [EmailValidation.collect EmailValidation.level1 EmailValidation.f0
       EmailValidation.rmap Py.str_first].
  split; intros Hlevel.
  - destruct (Z.leb_spec 3 level); [lia|].
    destruct (2 <=? level); eexists; reflexivity.
  - destruct (Z.leb_spec 3 level); [|lia].
    destruct (Z.leb_spec 2 level); [|lia].
    reflexivity.
Qed.

Lemma generate_permutations_empty_names_witness :
  (EmailValidation.motta_generate_permutations "" "Doe" "example.com" 1
     = Raise IndexError /\
   EmailValidation.motta_generate_permutations "" "Doe" "example.com" 2
     = Raise IndexError /\
   EmailValidation.motta_generate_permutations "" "Doe" "example.com" 3
     = Raise IndexError) /\
  (exists out, EmailValidation.motta_generate_permutations "John" "" "example.com" 1 = Ok out) /\
  (exists out, EmailValidation.motta_generate_permutations "John" "" "example.com" 2 = Ok out) /\
  EmailValidation.motta_generate_permutations "John" "" "example.com" 3 = Raise IndexError.
Proof.
  assert (Hjohn : "John" <> "") by discriminate.
  destruct (generate_permutations_empty_names "John" "Doe" "example.com" 1)
    as [E1 G1].
  destruct (generate_permutations_empty_names "John" "Doe" "example.com" 2)
    as [E2 G2].
  destruct (generate_permutations_empty_names "John" "Doe" "example.com" 3)
    as [E3 G3].
  split; [exact (conj E1 (conj E2 E3))|].
  split; [apply (proj1 (G1 Hjohn)); lia|].
  split; [apply (proj1 (G2 Hjohn)); lia|].
  apply (proj2 (G3 Hjohn)); lia.
Defined.

(** ** The SMTP probe *)

(** Opens the monad operations so that a run computes. *)
Ltac run_monad :=
  unfold try_except, with_, bind, when, call, emit, print, raise, ret,
         SMTP_connect, SMTP_exit, SMTP_set_debuglevel, SMTP_helo, SMTP_mail,
         SMTP_rcpt, dns_resolve, random_choices_join, random_uniform.

(** Splits on the answers of the mail server that the run depends on,
    in the order of the dialog. *)
Ltac server_answers w :=
  repeat match goal with
    | |- context [smtp_connect w ?h ?a] => destruct (smtp_connect w h a) eqn:?; cbn
    end;
  repeat match goal with
    | |- context [smtp_helo w ?h ?a] => destruct (smtp_helo w h a) eqn:?; cbn
    end;
  repeat match goal with
    | |- context [smtp_mail w ?h ?a] => destruct (smtp_mail w h a) eqn:?; cbn
    end;
  repeat match goal with
    | |- context [smtp_rcpt w ?h ?a] =>
        destruct (smtp_rcpt w h a) as [[? ?]|?] eqn:?; cbn
    end;
  repeat match goal with
    | |- context [smtp_exit w ?h] => destruct (smtp_exit w h) eqn:?; cbn
    end.

Section Probe.
Import EmailValidation.

(** A probe never raises; it opens one session, prints no result line and
    no report, draws nothing; and it answers [true] exactly when RCPT TO
    was sent once, came back with code 250, and no library call raised. *)
Lemma probe_outcome (email sender_email mx_server : string) (debug : Z)
    (w : World) (h : list event) :
  exists b evs,
    motta_validate_email_smtp email sender_email mx_server debug w h = (Ok b, evs) /\
    results_of evs = [] /\
    connections evs = [mx_server] /\
    reports evs = [] /\
    choices evs = [] /\
    (b = true <->
       (exists msg, rcpt_replies evs = [(email, Ok (250, msg))]) /\ raised evs = false).
Proof.
  unfold motta_validate_email_smtp. run_monad.
  destruct (1 <=? debug), (debug =? 2); cbn; server_answers w.
  all: eexists _, _; (split; [reflexivity|]); cbn.
  all: repeat split; try done.
  all: try (intros [[msg ?] ?]; done).
  all: try (intros [[msg [= E]] ?]; apply Z.eqb_eq; exact E).
  all: match goal with
       | E : (_ =? 250) = true |- _ =>
           apply Z.eqb_eq in E; subst; eexists; reflexivity
       end.
Qed.


(** The session of a probe.  Every call of the probe carries the answer
    of the world, and its calls are one of the six sessions of
    [probe_session], with the verdict of that session; the probe prints no
    result line and does not sleep. *)
Lemma probe_session_of (email sender_email mx_server : string) (debug : Z)
    (w : World) (h : list event) :
  exists b evs,
    motta_validate_email_smtp email sender_email mx_server debug w h = (Ok b, evs) /\
    answered w h evs /\
    probe_session email sender_email mx_server (smtp_calls evs) b /\
    results_of evs = [] /\
    sleeps evs = [].
Proof.
  unfold motta_validate_email_smtp. run_monad.
  destruct (1 <=? debug), (debug =? 2); cbn; server_answers w.
  all: eexists _, _; (split; [reflexivity|]); cbn.
  all: rewrite <- ?app_assoc in *; cbn [app] in *; rewrite ?app_nil_r in *.
  all: repeat match goal with u : unit |- _ => destruct u end.
  all: (split; [repeat split; by symmetry|]).
  all: (split; [|done]).
  all: first
    [ by constructor
    | match goal with
      | |- context [EvRcpt _ (Ok (?z, ?s))] =>
          exact (session_complete _ _ _ _ _ (z, s))
      end ].
Qed.

(** The verdict of a session is an acceptance for one session only. *)
Lemma probe_session_accepted (email sender_email mx_server : string)
    (calls : list event) :
  probe_session email sender_email mx_server calls true <->
  exists greeting sender_reply message,
    calls = [ EvConnect mx_server (Ok tt);
              EvHelo "mottasec.com" (Ok greeting);
              EvMail sender_email (Ok sender_reply);
              EvRcpt email (Ok (250, message));
              EvExit (Ok tt) ].
Proof.
  split.
  - inversion 1 as [| | | | |greeting sender_reply [code message] Hcalls Hcode].
    apply Z.eqb_eq in Hcode. cbn in Hcode. subst code.
    by exists greeting, sender_reply, message.
  - intros (greeting & sender_reply & message & ->).
    exact (session_complete _ _ _ greeting sender_reply (250, message)).
Qed.

End Probe.

(** ** Observations on concatenated events *)

Lemma results_of_app (a b : list event) :
  results_of (a ++ b) = results_of a ++ results_of b.
Proof. apply omap_app. Qed.

Lemma connections_app (a b : list event) :
  connections (a ++ b) = connections a ++ connections b.
Proof. apply omap_app. Qed.

Lemma reports_app (a b : list event) :
  reports (a ++ b) = reports a ++ reports b.
Proof. apply omap_app. Qed.

Lemma choices_app (a b : list event) :
  choices (a ++ b) = choices a ++ choices b.
Proof. apply omap_app. Qed.

(** Computes the observations of a list of events made of known events
    and of the events of sub-runs. *)
Ltac observe :=
  unfold results_of, connections, reports, choices in *;
  repeat (progress (rewrite ?omap_app; cbn)).

(** ** The inter-probe delay *)

Lemma uf_value_range (r : unit_fraction) : (0 <= uf_value r)%Q /\ (uf_value r < 1)%Q.
Proof.
  destruct r as [p g]. unfold uf_value, Qle, Qlt. cbn [Qnum Qden uf_num uf_gap].
  rewrite Zpos_P_of_succ_nat. lia.
Qed.

(** Integers as small as a pause can be, or as the difference of two
    such, are converted as they are. *)
Lemma float_of_int_small (n : Z) :
  Z.abs n <= 2 * longest_sleep -> float_of_int n = Ok (inject_Z n).
Proof.
  intros Hn. unfold float_of_int.
  assert (Hlim : 2 * longest_sleep < 2 ^ 1024 - 2 ^ 970) by (by vm_compute).
  destruct (Z.ltb_spec (Z.abs n) (2 ^ 1024 - 2 ^ 970)) as [_|Hge]; [done|].
  exfalso. revert Hlim Hge Hn. generalize (2 ^ 1024 - 2 ^ 970). lia.
Qed.

(** The only exception of the arithmetic of [random.uniform] is
    [OverflowError]. *)
Lemma uniform_value_error (a b : Z) (r : unit_fraction) (e : exception) :
  uniform_value a b r = Raise e -> e = OverflowError.
Proof.
  unfold uniform_value, float_of_int.
  destruct (Z.abs (b - a) <? _); [|by intros [= <-]].
  destruct (Z.abs a <? _); [done|by intros [= <-]].
Qed.

(** A value that was drawn is the sum of the source on the rationals. *)
Lemma uniform_value_ok (a b : Z) (r : unit_fraction) (d : Q) :
  uniform_value a b r = Ok d ->
  d = (inject_Z a + inject_Z (b - a) * uf_value r)%Q.
Proof.
  unfold uniform_value, float_of_int.
  destruct (Z.abs (b - a) <? _); [|done].
  destruct (Z.abs a <? _); [|done].
  by intros [= <-].
Qed.

Lemma inject_Z_sub (a b : Z) : (inject_Z (b - a) == inject_Z b - inject_Z a)%Q.
Proof. unfold Z.sub. by rewrite inject_Z_plus, inject_Z_opp. Qed.

(** A draw between two ordered bounds lies between them. *)
Lemma uniform_between (a b : Z) (r : unit_fraction) (d : Q) :
  a <= b ->
  uniform_value a b r = Ok d ->
  (inject_Z a <= d)%Q /\ (d <= inject_Z b)%Q.
Proof.
  intros Hab Hd. apply uniform_value_ok in Hd. subst d.
  destruct (uf_value_range r) as [H0 H1].
  assert (inject_Z a <= inject_Z b)%Q by (by rewrite <- Zle_Qle).
  rewrite inject_Z_sub.
  split; nra.
Qed.

(** A draw lies between its bounds, in whichever order they are. *)
Lemma uniform_within (a b lo hi : Z) (r : unit_fraction) (d : Q) :
  lo <= a <= hi -> lo <= b <= hi ->
  uniform_value a b r = Ok d ->
  (inject_Z lo <= d)%Q /\ (d <= inject_Z hi)%Q.
Proof.
  intros Ha Hb Hd. apply uniform_value_ok in Hd. subst d.
  destruct (uf_value_range r) as [H0 H1].
  assert (inject_Z lo <= inject_Z a)%Q by (rewrite <- Zle_Qle; lia).
  assert (inject_Z a <= inject_Z hi)%Q by (rewrite <- Zle_Qle; lia).
  assert (inject_Z lo <= inject_Z b)%Q by (rewrite <- Zle_Qle; lia).
  assert (inject_Z b <= inject_Z hi)%Q by (rewrite <- Zle_Qle; lia).
  rewrite inject_Z_sub.
  split; nra.
Qed.

(** What [time.sleep] can raise. *)
Lemma sleep_error_cases (secs : Q) (e : exception) :
  sleep_error secs = Some e -> e = ValueError \/ e = OverflowError.
Proof.
  unfold sleep_error.
  destruct (negb (fits_clock secs)); [intros [= <-]; by right|].
  destruct (Qle_bool 0 secs); [done|intros [= <-]; by left].
Qed.



(** Bounds of either sign that are no larger than [longest_sleep] are
    within the range of [float], and so is their difference. *)
Lemma uniform_value_defined (a b : Z) (r : unit_fraction) :
  - longest_sleep <= a <= longest_sleep ->
  - longest_sleep <= b <= longest_sleep ->
  exists d, uniform_value a b r = Ok d.
Proof.
  intros Ha Hb. unfold uniform_value.
  rewrite (float_of_int_small (b - a)) by lia.
  rewrite (float_of_int_small a) by lia. by eexists.
Qed.

(** [time.sleep] raises [ValueError] on a negative delay that fits the
    clock. *)
Lemma sleep_error_negative (secs : Q) :
  (inject_Z (- longest_sleep) <= secs)%Q -> (secs < 0)%Q ->
  sleep_error secs = Some ValueError.
Proof.
  intros Hlo Hneg. unfold sleep_error, fits_clock.
  assert (H1 : Qle_bool (inject_Z (- 2 ^ 63)) (secs * inject_Z (10 ^ 9)) = true).
  { apply Qle_bool_iff.
    assert (Hlo' : (-9223372036 # 1 <= secs)%Q) by exact Hlo.
    change (inject_Z (- 2 ^ 63)) with (-9223372036854775808 # 1).
    change (inject_Z (10 ^ 9)) with (1000000000 # 1).
    nra. }
  assert (H2 : Qle_bool (inject_Z (2 ^ 63)) (secs * inject_Z (10 ^ 9)) = false).
  { apply not_true_is_false. intros Hle. apply Qle_bool_iff in Hle.
    revert Hle.
    change (inject_Z (2 ^ 63)) with (9223372036854775808 # 1).
    change (inject_Z (10 ^ 9)) with (1000000000 # 1).
    intros. nra. }
  rewrite H1, H2. cbn [andb negb].
  destruct (Qle_bool 0 secs) eqn:Hle; [|done].
  apply Qle_bool_iff in Hle. exfalso. by apply (Qlt_not_le _ _ Hneg).
Qed.

(** With both bounds negative, and no smaller than [- longest_sleep], the
    draw succeeds and [time.sleep] raises [ValueError] on it. *)
Lemma pause_fails (a b : Z) (r : unit_fraction) :
  - longest_sleep <= a < 0 -> - longest_sleep <= b < 0 ->
  exists d, uniform_value a b r = Ok d /\ sleep_error d = Some ValueError.
Proof.
  intros Ha Hb.
  destruct (uniform_value_defined a b r) as [d Hd]; [lia..|].
  exists d. split; [exact Hd|].
  destruct (uniform_within a b (- longest_sleep) (-1) r d) as [H0 H1];
    [lia..|exact Hd|].
  apply sleep_error_negative; [exact H0|].
  apply (Qle_lt_trans _ _ _ H1). reflexivity.
Qed.


(** Splits on the draw of the pause in the goal and, when the draw gave
    the delay [d], on what [time.sleep] does with it. *)
Ltac pause_outcome d Hd Hs :=
  match goal with
  | |- context [uniform_value ?a ?b ?r] =>
      destruct (uniform_value a b r) as [d|?] eqn:Hd
  end;
  cbn [app];
  try match goal with
  | |- context [sleep_error d] => destruct (sleep_error d) as [?|] eqn:Hs
  end;
  cbn [app].

(** ** The address-of-record and catch-all step *)

Section Scheduler.
Import EmailValidation.

(** Replaces the next probe of the goal by its outcome [b] and events. *)
Ltac next_probe b evs :=
  match goal with
  | |- context [motta_validate_email_smtp ?e ?s ?m ?d ?w ?h] =>
      let E := fresh "E" in
      let R := fresh "R" in
      let C := fresh "C" in
      let P := fresh "P" in
      let K := fresh "K" in
      destruct (probe_outcome e s m d w h) as (b & evs & E & R & C & P & K & _);
      rewrite E
  end.

(** The step never raises.  With [no_check] it answers [(True, False)]
    at once: no session is opened and no synthetic address is drawn.
    Otherwise it opens two sessions, draws one synthetic local part, and
    prints the invalid line of the address of record when that was
    rejected.  The catch-all alert is printed exactly when it answers
    [is_catch_all]. *)
Lemma info_address_outcome (domain sender_email mx_server : string) (debug : Z)
    (no_check : bool) (check_email : option string) (w : World) (h : list event) :
  exists info_valid is_catch_all evs,
    motta_validate_info_address domain sender_email mx_server debug
                                no_check check_email w h
      = (Ok (info_valid, is_catch_all), evs) /\
    reports evs = (if is_catch_all then [MsgCatchAll domain] else []) /\
    (if no_check
     then info_valid = true /\ is_catch_all = false /\
          connections evs = [] /\ choices evs = [] /\ results_of evs = []
     else connections evs = [mx_server; mx_server] /\
          (exists random_string, choices evs = [random_string]) /\
          results_of evs =
            (if info_valid then []
             else [(address_of_record domain check_email, false)])).
Proof.
  unfold motta_validate_info_address.
  destruct no_check.
  - run_monad. destruct (1 <=? debug); cbn; eexists _, _, _; repeat split.
  - unfold try_except, bind.
    next_probe b1 evs1.
    unfold print, emit, random_choices_join. cbn [app].
    destruct b1; cbn [app];
      next_probe b2 evs2; unfold when, print, emit, ret;
      destruct b2; cbn [app];
      eexists _, _, _; (split; [reflexivity|]); observe;
      rewrite ?R, ?C, ?P, ?K, ?R0, ?C0, ?P0, ?K0; cbn;
      (split; [reflexivity|]); (split; [reflexivity|]);
      (split; [eexists; reflexivity|reflexivity]).
Qed.

(** ** The candidate loop *)

Lemma accepted_count_cons (email : string) (b : bool) (rs : list (string * bool)) :
  accepted_count ((email, b) :: rs) = (if b then 1 else 0) + accepted_count rs.
Proof.
  unfold accepted_count, Py.len. rewrite filter_cons. cbn [snd].
  destruct b.
  - rewrite decide_True by done. cbn [length]. lia.
  - rewrite decide_False by done. lia.
Qed.

(** However the loop ends, the result lines it printed are those of a
    first stretch of the candidates, in order, one session for each; a
    non-empty list gets its first candidate probed; the loop prints no
    report and draws no synthetic address.  When it ends normally every
    candidate has its result line and the count is the number of
    acceptances; when it does not, the pause after a candidate failed:
    [time.sleep] raised [ValueError] or [OverflowError], or the arithmetic
    of [random.uniform] raised [OverflowError]. *)
Lemma validate_loop_outcome (permutations : list string)
    (sender_email mx_server : string) (delay : Z * Z) (debug : Z) :
  forall (valid_count : Z) (w : World) (h : list event),
  exists r evs,
    validate_loop permutations sender_email mx_server delay debug valid_count w h
      = (r, evs) /\
    map fst (results_of evs) `prefix_of` permutations /\
    connections evs = map (fun _ => mx_server) (results_of evs) /\
    reports evs = [] /\
    choices evs = [] /\
    (permutations <> [] -> results_of evs <> []) /\
    match r with
    | Ok n => map fst (results_of evs) = permutations /\
              n = valid_count + accepted_count (results_of evs)
    | Raise e => e = ValueError \/ e = OverflowError
    end.
Proof.
  induction permutations as [|email rest IH]; intros valid_count w h.
  - cbn. eexists _, _. split; [reflexivity|]. cbn.
    repeat split; try done. unfold accepted_count, Py.len. cbn. lia.
  - cbn [validate_loop]. unfold bind at 1.
    next_probe b evs1.
    unfold time_sleep, bind, print, emit, ret, random_uniform, raise.
    destruct b; cbn [app];
      pause_outcome d Hd Hs;
      try match goal with
      | |- context [validate_loop rest ?s ?m ?dl ?dbg ?vc ?w ?hh] =>
          destruct (IH vc w hh) as (r & evs & E2 & Hpre & Hcon & Hrep & Hcho & _ & Hr);
          rewrite E2
      end;
      eexists _, _; (split; [reflexivity|]); observe;
      rewrite ?R, ?C, ?P, ?K, ?Hcon, ?Hrep, ?Hcho; cbn.
    all: repeat split; try done.
    all: try (by apply prefix_cons).
    all: try (by apply prefix_cons, prefix_nil).
    all: try (destruct r as [n|e]; [|done];
              destruct Hr as [Hall Hn]; split; [by rewrite Hall|];
              rewrite accepted_count_cons; lia).
    all: first [ by apply (sleep_error_cases d)
               | right; by apply (uniform_value_error _ _ _ _ Hd) ].
Qed.


(** ** The run *)

(** After a successful MX lookup the run is the address-of-record and
    catch-all step, followed, when that step answers [(True, False)], by
    the candidate loop and the summary; an exception of the loop ends the
    run with the error line. *)
Lemma run_after_resolution (permutations : list string)
    (domain sender_email : string) (delay : Z * Z) (debug : Z)
    (no_check : bool) (check_email : option string) (w : World) (h : list event)
    (mx_server : string) (more : list string) :
  resolve_mx w h domain = Ok (mx_server :: more) ->
  let pre := resolution_events domain (mx_server :: more) debug in
  motta_validate_email_permutations permutations domain sender_email delay
                                    debug no_check check_email w h
  = let '(r_info, evs_info) :=
      motta_validate_info_address domain sender_email mx_server debug
                                  no_check check_email w (h ++ pre) in
    match r_info with
    | Ok (true, false) =>
        let '(r, evs_loop) :=
          validate_loop permutations sender_email mx_server delay debug 0 w
                        ((h ++ pre) ++ evs_info) in
        (Ok tt,
         pre ++ evs_info ++ evs_loop
             ++ [EvPrint (match r with
                          | Ok n => MsgSummary n (Py.len permutations)
                          | Raise e => MsgMxError domain e
                          end)])
    | Ok _ => (Ok tt, pre ++ evs_info)
    | Raise e => (Ok tt, pre ++ evs_info ++ [EvPrint (MsgMxError domain e)])
    end.
Proof.
  intros Hmx pre. subst pre.
  unfold motta_validate_email_permutations, try_except, bind at 1.
  unfold dns_resolve, call at 1. rewrite Hmx.
  unfold resolution_events.
  destruct (1 <=? debug); unfold when, bind, print, emit, ret; cbn [app].
  - rewrite <- (app_assoc h).  cbn [app].
    destruct (motta_validate_info_address _ _ _ _ _ _ _ _)
      as [[[[] []]|e] evs_info]; cbn [negb orb app];
      rewrite ?app_nil_r; try reflexivity.
    destruct (validate_loop _ _ _ _ _ _ _ _) as [[n|e] evs_loop];
      cbn [app]; rewrite <- ?app_assoc; reflexivity.
  - rewrite ?app_nil_r.
    destruct (motta_validate_info_address _ _ _ _ _ _ _ _)
      as [[[[] []]|e] evs_info]; cbn [negb orb app];
      rewrite ?app_nil_r; try reflexivity.
    destruct (validate_loop _ _ _ _ _ _ _ _) as [[n|e] evs_loop];
      cbn [app]; rewrite <- ?app_assoc; reflexivity.
Qed.

(** C2, as amended.  The probe always returns a boolean and never raises.
    Its calls are those of one of the sessions of [probe_session], each
    with the answer of the world: the connection; HELO when the connection
    was opened; MAIL FROM when HELO did not raise, whatever its reply;
    RCPT TO when MAIL FROM did not raise, whatever its reply; and the
    closing of the session whenever it was opened.  The verdict is that of
    the session: [True] exactly when RCPT TO was answered with code 250 and
    no call raised, the closing of the session included, and [False] in
    every other case. *)
Theorem probe_verdict (email sender_email mx_server : string) (debug : Z)
    (w : World) (h : list event) :
  exists b evs,
    motta_validate_email_smtp email sender_email mx_server debug w h = (Ok b, evs) /\
    answered w h evs /\
    probe_session email sender_email mx_server (smtp_calls evs) b /\
    (b = true <->
       exists greeting sender_reply message,
         smtp_calls evs = [ EvConnect mx_server (Ok tt);
                            EvHelo "mottasec.com" (Ok greeting);
                            EvMail sender_email (Ok sender_reply);
                            EvRcpt email (Ok (250, message));
                            EvExit (Ok tt) ]).
Proof.
  destruct (probe_session_of email sender_email mx_server debug w h)
    as (b & evs & E & Hans & Hses & _).
  exists b, evs. split; [exact E|]. split; [exact Hans|]. split; [exact Hses|].
  split.
  - intros ->. by apply probe_session_accepted.
  - intros (greeting & sender_reply & message & Hcalls).
    rewrite Hcalls in Hses. by inversion Hses.
Qed.

(** C2, as stated, fails in two ways.  A server that answers HELO with
    502 and RCPT TO with 250: the probe returns [True], although a dialog
    step got a code other than 250.  A server that answers RCPT TO with
    250 and whose session cannot be closed properly: the probe returns
    [False], although the RCPT TO code is exactly 250. *)
Lemma probe_verdict_counterexample :
  motta_validate_email_smtp "jdoe@example.com" "me@here.org" "mx.example.com." 0
                            helo_refused_world []
  = (Ok true,
     [ EvConnect "mx.example.com." (Ok tt);
       EvHelo "mottasec.com" (Ok (502, "Command not implemented"));
       EvMail "me@here.org" (Ok (250, "OK"));
       EvRcpt "jdoe@example.com" (Ok (250, "OK"));
       EvExit (Ok tt) ]) /\
  motta_validate_email_smtp "jdoe@example.com" "me@here.org" "mx.example.com." 0
                            quit_fails_world []
  = (Ok false,
     [ EvConnect "mx.example.com." (Ok tt);
       EvHelo "mottasec.com" (Ok (250, "Hello"));
       EvMail "me@here.org" (Ok (250, "OK"));
       EvRcpt "jdoe@example.com" (Ok (250, "OK"));
       EvExit (Raise LibraryError) ]).
Proof. split; vm_compute; reflexivity. Qed.

(** C8.  When the MX lookup returns no record or raises, the run opens no
    SMTP session and sends no RCPT TO, prints one report, the missing
    records or the failure, and returns normally. *)
Theorem mx_absence_short_circuits (permutations : list string)
    (domain sender_email : string) (delay : Z * Z) (debug : Z)
    (no_check : bool) (check_email : option string) (w : World) (h : list event) :
  resolve_mx w h domain = Ok [] \/ (exists e, resolve_mx w h domain = Raise e) ->
  exists evs,
    motta_validate_email_permutations permutations domain sender_email delay
                                      debug no_check check_email w h
      = (Ok tt, evs) /\
    connections evs = [] /\
    rcpt_replies evs = [] /\
    results_of evs = [] /\
    reports evs = [match resolve_mx w h domain with
                   | Ok _ => MsgNoMx domain
                   | Raise e => MsgMxError domain e
                   end].
Proof.
  intros Hmx.
  unfold motta_validate_email_permutations, try_except, bind at 1.
  unfold dns_resolve, call at 1.
  destruct Hmx as [Hmx|[e Hmx]]; rewrite Hmx; unfold print, emit;
    cbn [app]; eexists; (split; [reflexivity|]); by cbn.
Qed.

Lemma mx_absence_short_circuits_witness :
  (exists evs,
     motta_validate_email_permutations ["jdoe@example.com"] "example.com"
       "me@here.org" (20, 30) 0 false None no_mx_world [] = (Ok tt, evs) /\
     connections evs = [] /\ rcpt_replies evs = [] /\ results_of evs = [] /\
     reports evs = [MsgNoMx "example.com"]) /\
  (exists evs,
     motta_validate_email_permutations ["jdoe@example.com"] "example.com"
       "me@here.org" (20, 30) 0 false None nxdomain_world [] = (Ok tt, evs) /\
     connections evs = [] /\ rcpt_replies evs = [] /\ results_of evs = [] /\
     reports evs = [MsgMxError "example.com" LibraryError]).
Proof.
  split.
  - apply (mx_absence_short_circuits ["jdoe@example.com"] "example.com"
             "me@here.org" (20, 30) 0 false None no_mx_world []).
    left. reflexivity.
  - apply (mx_absence_short_circuits ["jdoe@example.com"] "example.com"
             "me@here.org" (20, 30) 0 false None nxdomain_world []).
    right. exists LibraryError. reflexivity.
Defined.

(** C3.  After a successful MX lookup, when the catch-all step answers
    [is_catch_all], the run ends with that step whatever the candidate
    list: its events are those of the lookup and of the step, the two
    sessions are those of the address of record and of the synthetic
    address, and the only report is the catch-all alert.  When the step
    answers that the domain is no catch-all, no run prints that alert, so
    the two outcomes differ in what is reported. *)
Theorem catch_all_gates_run (permutations : list string)
    (domain sender_email : string) (delay : Z * Z) (debug : Z)
    (no_check : bool) (check_email : option string) (w : World) (h : list event)
    (mx_server : string) (more : list string)
    (info_valid is_catch_all : bool) (evs_info : list event) :
  resolve_mx w h domain = Ok (mx_server :: more) ->
  let pre := resolution_events domain (mx_server :: more) debug in
  motta_validate_info_address domain sender_email mx_server debug
                              no_check check_email w (h ++ pre)
    = (Ok (info_valid, is_catch_all), evs_info) ->
  exists evs,
    motta_validate_email_permutations permutations domain sender_email delay
                                      debug no_check check_email w h
      = (Ok tt, evs) /\
    (is_catch_all = true ->
       evs = pre ++ evs_info /\
       connections evs = [mx_server; mx_server] /\
       reports evs = [MsgCatchAll domain] /\
       forall others,
         motta_validate_email_permutations others domain sender_email delay
                                           debug no_check check_email w h
           = (Ok tt, evs)) /\
    (is_catch_all = false -> forall d, MsgCatchAll d ∉ reports evs).
Proof.
  intros Hmx pre Hinfo.
  pose proof (info_address_outcome domain sender_email mx_server debug
                no_check check_email w (h ++ pre))
    as (iv & ca & evs' & E & Hrep & Hcheck).
  fold pre in Hinfo. rewrite Hinfo in E. injection E as <- <- <-.
  assert (Hpre : reports pre = [] /\ connections pre = []).
  { subst pre. unfold resolution_events. by destruct (1 <=? debug). }
  destruct Hpre as [Hpre_rep Hpre_con].
  destruct is_catch_all.
  - exists (pre ++ evs_info). split.
    + rewrite (run_after_resolution _ _ _ _ _ _ _ _ _ _ _ Hmx).
      fold pre. rewrite Hinfo. by destruct info_valid.
    + split; [|done]. intros _.
      destruct no_check; [by destruct Hcheck as (_ & ? & _)|].
      destruct Hcheck as (Hcon & _ & _).
      rewrite connections_app, reports_app, Hpre_rep, Hpre_con, Hcon, Hrep.
      repeat split.
      intros others.
      rewrite (run_after_resolution _ _ _ _ _ _ _ _ _ _ _ Hmx).
      fold pre. rewrite Hinfo. by destruct info_valid.
  - pose proof (run_after_resolution permutations domain sender_email delay
                  debug no_check check_email w h mx_server more Hmx) as Hrun.
    fold pre in Hrun. cbv zeta in Hrun. rewrite Hinfo in Hrun.
    destruct info_valid.
    + destruct (validate_loop_outcome permutations sender_email mx_server
                  delay debug 0 w ((h ++ pre) ++ evs_info))
        as (r & evs_loop & El & _ & _ & Hlrep & _).
      rewrite El in Hrun. eexists. split; [exact Hrun|].
      split; [done|]. intros _ d.
      rewrite !reports_app, Hpre_rep, Hrep, Hlrep. cbn.
      destruct r; cbn; rewrite list_elem_of_singleton; done.
    + eexists. split; [exact Hrun|]. split; [done|]. intros _ d.
      rewrite reports_app, Hpre_rep, Hrep. cbn. apply not_elem_of_nil.
Qed.

Lemma catch_all_gates_run_witness :
  exists evs,
    motta_validate_email_permutations ["jdoe@example.com"; "asmith@example.com"]
      "example.com" "me@here.org" (20, 30) 0 false None catch_all_world []
      = (Ok tt, evs) /\
    (true = true ->
       evs = resolution_events "example.com" ["mx.example.com."] 0
             ++ snd (motta_validate_info_address "example.com" "me@here.org"
                       "mx.example.com." 0 false None catch_all_world
                       ([] ++ resolution_events "example.com" ["mx.example.com."] 0)) /\
       connections evs = ["mx.example.com."; "mx.example.com."] /\
       reports evs = [MsgCatchAll "example.com"] /\
       forall others,
         motta_validate_email_permutations others
           "example.com" "me@here.org" (20, 30) 0 false None catch_all_world []
           = (Ok tt, evs)) /\
    (true = false -> forall d, MsgCatchAll d ∉ reports evs).
Proof.
  apply (catch_all_gates_run ["jdoe@example.com"; "asmith@example.com"]
           "example.com" "me@here.org" (20, 30) 0 false None catch_all_world []
           "mx.example.com." [] true true).
  - reflexivity.
  - vm_compute. reflexivity.
Defined.




(** C7 fails on the code when the pause after a candidate fails.  The run
    reaches the probing phase with three candidates (the address of record
    is accepted and the domain is no catch-all).  With the delay range
    [-2, -1] it prints the result of the first candidate, and then
    [time.sleep] raises [ValueError] on the negative delay; with the delay
    range [10000000000, 10000000000] it raises [OverflowError].  Either
    way the handler of the run, whose line says that the MX server could
    not be retrieved, ends the run: the second and the third candidate are
    never probed and get no result, and no summary is printed. *)
Theorem failed_pause_drops_results :
  motta_validate_info_address "example.com" "me@here.org" "mx.example.com." 0
      false None ordinary_world
      (resolution_events "example.com" ["mx.example.com."] 0)
    = (Ok (true, false),
       [ EvConnect "mx.example.com." (Ok tt);
         EvHelo "mottasec.com" (Ok (250, "Hello"));
         EvMail "me@here.org" (Ok (250, "OK"));
         EvRcpt "info@example.com" (Ok (250, "OK"));
         EvExit (Ok tt);
         EvPrint MsgBlank;
         EvPrint (MsgCheckValid "info@example.com");
         EvPrint MsgBlank;
         EvChoices "qwertyuiop";
         EvConnect "mx.example.com." (Ok tt);
         EvHelo "mottasec.com" (Ok (250, "Hello"));
         EvMail "me@here.org" (Ok (250, "OK"));
         EvRcpt "mottasec-qwertyuiop@example.com" (Ok (550, "No such user"));
         EvExit (Ok tt) ]) /\
  (exists evs,
     motta_validate_email_permutations
       ["jdoe@example.com"; "asmith@example.com"; "bjones@example.com"]
       "example.com" "me@here.org" (-2, -1) 0 false None ordinary_world []
       = (Ok tt, evs) /\
     results_of evs = [("jdoe@example.com", true)] /\
     map fst (rcpt_replies evs)
       = ["info@example.com"; "mottasec-qwertyuiop@example.com"; "jdoe@example.com"] /\
     sleeps evs = [] /\
     reports evs = [MsgMxError "example.com" ValueError]) /\
  (exists evs,
     motta_validate_email_permutations
       ["jdoe@example.com"; "asmith@example.com"; "bjones@example.com"]
       "example.com" "me@here.org" (10000000000, 10000000000) 0 false None
       ordinary_world []
       = (Ok tt, evs) /\
     results_of evs = [("jdoe@example.com", true)] /\
     map fst (rcpt_replies evs)
       = ["info@example.com"; "mottasec-qwertyuiop@example.com"; "jdoe@example.com"] /\
     sleeps evs = [] /\
     reports evs = [MsgMxError "example.com" OverflowError]).
Proof.
  split; [vm_compute; reflexivity|].
  split; (eexists; split; [vm_compute; reflexivity|]); repeat split.
Qed.

(** With [no_check] the step returns before the catch-all detection:
    whatever the world, a run that resolves the MX draws no synthetic
    address and goes on to the candidates. *)
Lemma no_check_skips_catch_all (permutations : list string)
    (domain sender_email : string) (delay : Z * Z) (debug : Z)
    (check_email : option string) (w : World) (h : list event)
    (mx_server : string) (more : list string) :
  resolve_mx w h domain = Ok (mx_server :: more) ->
  exists evs,
    motta_validate_email_permutations permutations domain sender_email delay
                                      debug true check_email w h
      = (Ok tt, evs) /\
    choices evs = [] /\
    (permutations <> [] -> results_of evs <> []) /\
    forall d, MsgCatchAll d ∉ reports evs.
Proof.
  intros Hmx.
  set (pre := resolution_events domain (mx_server :: more) debug).
  pose proof (info_address_outcome domain sender_email mx_server debug
                true check_email w (h ++ pre))
    as (iv & ca & evs_info & E & Hrep & -> & -> & _ & Hcho & Hres).
  pose proof (run_after_resolution permutations domain sender_email delay
                debug true check_email w h mx_server more Hmx) as Hrun.
  fold pre in Hrun. cbv zeta in Hrun. rewrite E in Hrun.
  destruct (validate_loop_outcome permutations sender_email mx_server
              delay debug 0 w ((h ++ pre) ++ evs_info))
    as (r & evs_loop & El & _ & _ & Hlrep & Hlcho & Hne & _).
  rewrite El in Hrun. eexists. split; [exact Hrun|].
  assert (Hpre : choices pre = [] /\ results_of pre = [] /\ reports pre = []).
  { subst pre. unfold resolution_events. by destruct (1 <=? debug). }
  destruct Hpre as (Hp1 & Hp2 & Hp3).
  rewrite !choices_app, !results_of_app, !reports_app.
  rewrite Hp1, Hp2, Hp3, Hcho, Hres, Hrep, Hlrep, Hlcho.
  split; [by destruct r|]. split.
  - intros Hnil. destruct r; cbn; rewrite app_nil_r; by apply Hne.
  - intros d. destruct r; cbn; rewrite list_elem_of_singleton; done.
Qed.

(** C5 fails on the code at [no_check = True].  The server accepts every
    recipient; the run draws no synthetic address and sends RCPT TO for the
    candidate only, reports the candidate, which does not exist, as valid,
    and ends with the summary: no catch-all verdict was computed before
    the candidate was probed. *)
Theorem no_check_run_without_catch_all_verdict :
  motta_validate_email_permutations ["nobody@example.com"] "example.com"
    "me@here.org" (20, 30) 0 true None catch_all_world []
  = (Ok tt,
     [ EvResolve "example.com" (Ok ["mx.example.com."]);
       EvConnect "mx.example.com." (Ok tt);
       EvHelo "mottasec.com" (Ok (250, "Hello"));
       EvMail "me@here.org" (Ok (250, "OK"));
       EvRcpt "nobody@example.com" (Ok (250, "OK"));
       EvExit (Ok tt);
       EvPrint MsgBlank;
       EvPrint (MsgFound "nobody@example.com");
       EvPrint MsgBlank;
       EvRandom (UnitFraction 1 0);
       EvPrint (MsgWaiting (50 # 2));
       EvSleep (50 # 2);
       EvPrint (MsgSummary 1 1) ]).
Proof. vm_compute. reflexivity. Qed.

(** Without [no_check] the verdict does come first: the step that runs
    before the loop draws exactly one synthetic address and the loop draws
    none. *)
Lemma catch_all_checked_first (permutations : list string)
    (domain sender_email : string) (delay : Z * Z) (debug : Z)
    (check_email : option string) (w : World) (h : list event)
    (mx_server : string) (more : list string) :
  resolve_mx w h domain = Ok (mx_server :: more) ->
  let pre := resolution_events domain (mx_server :: more) debug in
  exists evs_info evs_rest random_string,
    motta_validate_email_permutations permutations domain sender_email delay
                                      debug false check_email w h
      = (Ok tt, pre ++ evs_info ++ evs_rest) /\
    connections pre = [] /\
    choices evs_info = [random_string] /\
    connections evs_info = [mx_server; mx_server] /\
    choices evs_rest = [].
Proof.
  intros Hmx pre.
  pose proof (info_address_outcome domain sender_email mx_server debug
                false check_email w (h ++ pre))
    as (iv & ca & evs_info & E & Hrep & Hcon & [random_string Hcho] & Hres).
  pose proof (run_after_resolution permutations domain sender_email delay
                debug false check_email w h mx_server more Hmx) as Hrun.
  fold pre in Hrun. cbv zeta in Hrun. rewrite E in Hrun.
  assert (Hpre : connections pre = []).
  { subst pre. unfold resolution_events. by destruct (1 <=? debug). }
  destruct iv, ca.
  2: { destruct (validate_loop_outcome permutations sender_email mx_server
                   delay debug 0 w ((h ++ pre) ++ evs_info))
         as (r & evs_loop & El & _ & _ & _ & Hlcho & _).
       rewrite El in Hrun. eexists _, _, _. split; [exact Hrun|].
       repeat split; try done.
       rewrite choices_app, Hlcho. by destruct r. }
  all: exists evs_info, [], random_string; rewrite app_nil_r;
       split; [exact Hrun|]; done.
Qed.

End Scheduler.

(** * Further properties *)

(** ** Partitioning: balance, short lists, and the generated candidates *)

Section SplitMore.
Import Harvester.
Context {A : Type}.
Implicit Types (l : list A) (t k : Z).

(** The slice of a part in range has the length the part is due. *)
Lemma motta_split_length l t k :
  1 <= k <= t ->
  exists s, _motta_split l t k = Ok s /\ Py.len s = part_len (Py.len l) t k.
Proof.
  intros Hk. eexists. split; [by apply motta_split_in_range|].
  pose proof (len_nonneg l) as Hn.
  assert (Ht : 0 < t) by lia.
  pose proof (part_len_nonneg (Py.len l) t k Ht Hn).
  pose proof (part_start_nonneg (Py.len l) t k Ht Hn ltac:(lia)).
  pose proof (part_end_bound (Py.len l) t k Ht Hn ltac:(lia)).
  unfold Py.len at 1. rewrite length_take, length_drop.
  unfold Py.len in *. lia.
Qed.

(** The element at a position of a slice is the element of the list at
    that position counted from where the part begins. *)
Lemma motta_split_lookup l t k s (i : nat) (x : A) :
  1 <= k <= t ->
  _motta_split l t k = Ok s ->
  s !! i = Some x ->
  l !! (Z.to_nat (part_start (Py.len l) t k) + i)%nat = Some x /\
  (Z.of_nat i < part_len (Py.len l) t k).
Proof.
  intros Hk Hs Hi. rewrite motta_split_in_range in Hs by done.
  injection Hs as <-.
  apply lookup_take_Some in Hi as [Hi Hlt].
  rewrite lookup_drop in Hi. split; [done|]. lia.
Qed.

End SplitMore.

(** X1.  The parts are balanced: of two parts in range the earlier one is
    at least as long as the later one, and longer by one element at
    most. *)
Theorem motta_split_balanced {A} (l : list A) (total_parts j k : Z) :
  1 <= j -> j <= k -> k <= total_parts ->
  exists sj sk,
    Harvester._motta_split l total_parts j = Ok sj /\
    Harvester._motta_split l total_parts k = Ok sk /\
    Py.len sk <= Py.len sj <= Py.len sk + 1.
Proof.
  intros Hj Hjk Hk.
  destruct (motta_split_length l total_parts j ltac:(lia)) as (sj & Ej & Lj).
  destruct (motta_split_length l total_parts k ltac:(lia)) as (sk & Ek & Lk).
  exists sj, sk. split; [done|]. split; [done|].
  rewrite Lj, Lk. unfold Harvester.part_len.
  destruct (Z.leb_spec j (Py.len l mod total_parts));
    destruct (Z.leb_spec k (Py.len l mod total_parts)); lia.
Qed.

Lemma motta_split_balanced_witness :
  exists sj sk,
    Harvester._motta_split [1;2;3;4;5;6;7;8;9;10] 4 2 = Ok sj /\
    Harvester._motta_split [1;2;3;4;5;6;7;8;9;10] 4 3 = Ok sk /\
    Py.len sk <= Py.len sj <= Py.len sk + 1.
Proof.
  apply (motta_split_balanced [1;2;3;4;5;6;7;8;9;10] 4 2 3); lia.
Defined.

(** X2.  With at least as many parts as candidates every part holds one
    candidate at most: part [k] is the [k]-th candidate alone while there
    is one, and it is empty from then on. *)
Theorem motta_split_short_list {A} (l : list A) (total_parts k : Z) :
  Py.len l <= total_parts -> 1 <= k <= total_parts ->
  Harvester._motta_split l total_parts k
  = Ok (option_list (l !! Z.to_nat (k - 1))).
Proof.
  intros Hshort Hk. rewrite motta_split_in_range by done. f_equal.
  pose proof (len_nonneg l) as Hn.
  unfold Harvester.part_len, Harvester.part_start.
  destruct (Z.eq_dec (Py.len l) total_parts) as [Heq|Hne].
  - rewrite Heq, Z.div_same, Z.mod_same by lia.
    destruct (Z.leb_spec k 0); [lia|].
    replace ((k - 1) * 1 + Z.min (k - 1) 0) with (k - 1) by lia.
    replace (Z.to_nat (1 + 0)) with 1%nat by lia.
    destruct (l !! Z.to_nat (k - 1)) as [x|] eqn:Hx.
    + apply list_elem_of_split_length in Hx as (l1 & l2 & -> & Hl1).
      rewrite Hl1, drop_app_length. reflexivity.
    + apply lookup_ge_None in Hx. unfold Py.len in *. lia.
  - rewrite Z.div_small, Z.mod_small by lia.
    replace ((k - 1) * 0 + Z.min (k - 1) (Py.len l))
      with (Z.min (k - 1) (Py.len l)) by lia.
    destruct (Z.leb_spec k (Py.len l)).
    + rewrite Z.min_l by lia. replace (Z.to_nat (0 + 1)) with 1%nat by lia.
      destruct (l !! Z.to_nat (k - 1)) as [x|] eqn:Hx.
      * apply list_elem_of_split_length in Hx as (l1 & l2 & -> & Hl1).
        rewrite Hl1, drop_app_length. reflexivity.
      * apply lookup_ge_None in Hx. unfold Py.len in *. lia.
    + rewrite Z.min_r by lia. cbn [Z.add Z.to_nat take].
      destruct (l !! Z.to_nat (k - 1)) as [x|] eqn:Hx; [|done].
      apply lookup_lt_Some in Hx. unfold Py.len in *. lia.
Qed.

Lemma motta_split_short_list_witness :
  Harvester._motta_split ["a@x.io"; "b@x.io"] 4 2 = Ok ["b@x.io"] /\
  Harvester._motta_split ["a@x.io"; "b@x.io"] 4 3 = Ok [].
Proof.
  split.
  - apply (motta_split_short_list ["a@x.io"; "b@x.io"] 4 2);
      unfold Py.len; cbn [length]; lia.
  - apply (motta_split_short_list ["a@x.io"; "b@x.io"] 4 3);
      unfold Py.len; cbn [length]; lia.
Defined.

(** Two parts that hold the same element of a list without repetition are
    the same part. *)
Lemma motta_split_parts_disjoint {A} (l : list A) (t j k : Z) (sj sk : list A) (x : A) :
  NoDup l -> 1 <= j <= t -> 1 <= k <= t ->
  Harvester._motta_split l t j = Ok sj -> x ∈ sj ->
  Harvester._motta_split l t k = Ok sk -> x ∈ sk ->
  j = k.
Proof.
  intros Hnd Hj Hk Ej Hxj Ek Hxk.
  apply list_elem_of_lookup in Hxj as [ij Hij].
  apply list_elem_of_lookup in Hxk as [ik Hik].
  destruct (motta_split_lookup l t j sj ij x Hj Ej Hij) as [Pj Lj].
  destruct (motta_split_lookup l t k sk ik x Hk Ek Hik) as [Pk Lk].
  pose proof (NoDup_lookup l _ _ x Hnd Pj Pk) as Hpos.
  pose proof (len_nonneg l) as Hn.
  assert (Ht : 0 < t) by lia.
  pose proof (part_start_nonneg (Py.len l) t j Ht Hn ltac:(lia)).
  pose proof (part_start_nonneg (Py.len l) t k Ht Hn ltac:(lia)).
  destruct (Z.lt_trichotomy j k) as [Hlt|[Heq|Hgt]]; [|done|].
  - pose proof (part_end_mono (Py.len l) t j k Ht Hn Hlt). lia.
  - pose proof (part_end_mono (Py.len l) t k j Ht Hn ltac:(lia)). lia.
Qed.

(** Every element of the list is in the slice of some part. *)
Lemma motta_split_parts_cover {A} (l : list A) (t : Z) (x : A) :
  1 <= t -> x ∈ l ->
  exists k s, 1 <= k <= t /\ Harvester._motta_split l t k = Ok s /\ x ∈ s.
Proof.
  intros Ht Hx.
  pose proof (concat_parts_from l t (Z.to_nat t) 1 ltac:(lia) ltac:(lia) ltac:(lia))
    as Hcat.
  rewrite part_start_first in Hcat by (pose proof (len_nonneg l); lia).
  change (drop (Z.to_nat 0) l) with l in Hcat.
  rewrite <- Hcat in Hx.
  apply list_elem_of_In, in_concat in Hx as (s & Hs & Hxs).
  apply in_map_iff in Hs as (k & <- & Hk).
  apply list_elem_of_In, elem_of_seqZ in Hk.
  exists k. eexists. split; [lia|].
  split; [apply motta_split_in_range; lia|].
  by apply list_elem_of_In.
Qed.

(** X3.  The candidates that [validate_targets] generates and then splits:
    for non-empty names and at least one part, every generated address is
    in the slice of exactly one part, so that runs over the parts
    [1 .. total_parts] together probe each candidate once. *)
Theorem generated_candidates_one_part
    (first_name last_name domain : string) (level total_parts : Z) :
  first_name <> "" -> last_name <> "" -> 1 <= total_parts ->
  exists all_permutations,
    EmailValidation.motta_generate_permutations first_name last_name domain level
      = Ok all_permutations /\
    forall x, x ∈ all_permutations ->
      exists k s,
        1 <= k <= total_parts /\
        Harvester._motta_split all_permutations total_parts k = Ok s /\
        x ∈ s /\
        forall k' s', 1 <= k' <= total_parts ->
          Harvester._motta_split all_permutations total_parts k' = Ok s' ->
          x ∈ s' -> k' = k.
Proof.
  intros Hf Hl Ht.
  destruct (patterns_defined first_name last_name domain level Hf Hl) as [raw Hraw].
  exists (EmailValidation.dict_fromkeys raw).
  rewrite generate_from_patterns, Hraw. split; [done|].
  intros x Hx.
  destruct (motta_split_parts_cover _ total_parts x Ht Hx) as (k & s & Hk & Es & Hxs).
  exists k, s. repeat split; try done; try lia.
  intros k' s' Hk' Es' Hxs'.
  exact (motta_split_parts_disjoint _ total_parts k' k s' s x
           (dict_fromkeys_NoDup raw) Hk' Hk Es' Hxs' Es Hxs).
Qed.

Lemma generated_candidates_one_part_witness :
  exists all_permutations,
    EmailValidation.motta_generate_permutations "John" "Doe" "example.com" 2
      = Ok all_permutations /\
    forall x, x ∈ all_permutations ->
      exists k s,
        1 <= k <= 4 /\
        Harvester._motta_split all_permutations 4 k = Ok s /\
        x ∈ s /\
        forall k' s', 1 <= k' <= 4 ->
          Harvester._motta_split all_permutations 4 k' = Ok s' ->
          x ∈ s' -> k' = k.
Proof.
  apply (generated_candidates_one_part "John" "Doe" "example.com" 2 4);
    [discriminate | discriminate | lia].
Defined.

(** ** The permutation generator: form and number of the addresses *)

Section GeneratorMore.
Import EmailValidation.

Lemma lower_char_idem (c : ascii) : lower_char (lower_char c) = lower_char c.
Proof. by destruct c as [[] [] [] [] [] [] [] []]. Qed.

Lemma lower_idem (s : string) : lower (lower s) = lower s.
Proof.
  induction s as [|c s IH]; cbn [lower]; [done|].
  by rewrite lower_char_idem, IH.
Qed.

Lemma lower_app (a b : string) : lower (a +:+ b) = lower a +:+ lower b.
Proof. induction a as [|c a IH]; simpl; [done|]. by rewrite IH. Qed.

Lemma lower_str_take (n : nat) (s : string) :
  lower (Py.str_take n s) = Py.str_take n (lower s).
Proof.
  revert s. induction n as [|n IH]; intros [|c s]; simpl; try done.
  by rewrite IH.
Qed.

Lemma lower_str_first (s : string) :
  rmap lower (Py.str_first (lower s)) = rmap lower (Py.str_first s).
Proof. destruct s as [|c s]; simpl; [done|]. by rewrite lower_char_idem. Qed.

Lemma length_lower (s : string) : String.length (lower s) = String.length s.
Proof. induction s as [|c s IH]; simpl; [done|]. by rewrite IH. Qed.

Lemma collect_values {A} (items : list (Result A)) (raw : list A) :
  collect items = Ok raw -> items = map Ok raw.
Proof.
  revert raw. induction items as [|[a|e] items IH]; intros raw; cbn.
  - by intros [= <-].
  - destruct (collect items) as [l|e]; [|done].
    intros [= <-]. cbn. by rewrite (IH l).
  - done.
Qed.

Lemma fromkeys_fold_length (l keys : list string) :
  (length (fold_left add_key l keys) <= length keys + length l)%nat.
Proof.
  revert keys. induction l as [|x l IH]; intros keys; cbn [fold_left length].
  - lia.
  - etrans; [apply IH|]. unfold add_key.
    destruct (bool_decide (x ∈ keys)); rewrite ?length_app; cbn; lia.
Qed.

Lemma dict_fromkeys_length (l : list string) :
  (length (dict_fromkeys l) <= length l)%nat.
Proof. apply (fromkeys_fold_length l []). Qed.

(** The three pattern lists do not depend on the case of the names. *)
Lemma levels_lower (first_name last_name d : string) :
  level1 (lower first_name) (lower last_name) d = level1 first_name last_name d /\
  level2 (lower first_name) (lower last_name) d = level2 first_name last_name d /\
  level3 (lower first_name) (lower last_name) d = level3 first_name last_name d.
Proof.
  unfold level1, level2, level3, fn, ln, f0, l0, f3, l3.
  rewrite <- !lower_str_take, !lower_idem, !lower_str_first.
  by rewrite !lower_str_take.
Qed.

End GeneratorMore.

(** X4.  For non-empty names every generated address, at every level, is
    a non-empty local part followed by [@] and the lower-cased domain. *)
Theorem generated_addresses_at_domain
    (first_name last_name domain : string) (level : Z) :
  first_name <> "" -> last_name <> "" ->
  exists out,
    EmailValidation.motta_generate_permutations first_name last_name domain level
      = Ok out /\
    forall x, x ∈ out ->
      exists local, local <> "" /\
        x = local +:+ "@" +:+ EmailValidation.lower domain.
Proof.
  intros Hf Hl.
  destruct first_name as [|c1 s1]; [done|].
  destruct last_name as [|c2 s2]; [done|].
  rewrite generate_from_patterns. unfold patterns_upto.
  destruct (2 <=? level), (3 <=? level); cbn [EmailValidation.rmap];
    eexists; (split; [reflexivity|]);
    intros x Hx; apply (proj1 (dict_fromkeys_elem _ _)) in Hx;
    repeat (apply elem_of_cons in Hx as [->|Hx];
            [eexists; split; [|reflexivity]; discriminate|]);
    by apply elem_of_nil in Hx.
Qed.

Lemma generated_addresses_at_domain_witness :
  exists out,
    EmailValidation.motta_generate_permutations "John" "Doe" "Example.COM" 3
      = Ok out /\
    forall x, x ∈ out ->
      exists local, local <> "" /\
        x = local +:+ "@" +:+ EmailValidation.lower "Example.COM".
Proof.
  apply (generated_addresses_at_domain "John" "Doe" "Example.COM" 3);
    discriminate.
Defined.

Lemma lower_app_fixed (a b : string) :
  EmailValidation.lower a = a -> EmailValidation.lower b = b ->
  EmailValidation.lower (a +:+ b) = a +:+ b.
Proof. intros Ha Hb. by rewrite lower_app, Ha, Hb. Qed.

(** Every value among the patterns is in lower case. *)
Lemma patterns_lower (first_name last_name domain : string) (level : Z) (x : string) :
  Ok x ∈ patterns_upto first_name last_name domain level ->
  EmailValidation.lower x = x.
Proof.
  unfold patterns_upto, EmailValidation.level1, EmailValidation.level2,
    EmailValidation.level3, EmailValidation.f0, EmailValidation.l0,
    EmailValidation.f3, EmailValidation.l3, EmailValidation.fn,
    EmailValidation.ln, EmailValidation.at_domain.
  intros Hx.
  destruct first_name as [|c1 s1], last_name as [|c2 s2];
    destruct (2 <=? level), (3 <=? level);
    cbn [app EmailValidation.rmap Py.str_first] in Hx;
    repeat (apply elem_of_cons in Hx as [Hx|Hx];
            [try discriminate Hx; injection Hx as ->;
             repeat first [ apply lower_idem | apply lower_app_fixed | reflexivity
                          | progress (simpl; rewrite ?lower_char_idem, ?lower_idem) ]|]);
    by apply elem_of_nil in Hx.
Qed.

(** X5.  Whatever the case of the names and of the domain, every generated
    address is in lower case: lower-casing it changes nothing. *)
Theorem generated_addresses_lower_case
    (first_name last_name domain : string) (level : Z) (out : list string) :
  EmailValidation.motta_generate_permutations first_name last_name domain level
    = Ok out ->
  forall x, x ∈ out -> EmailValidation.lower x = x.
Proof.
  rewrite generate_from_patterns.
  destruct (EmailValidation.collect _) as [raw|e] eqn:Hraw; [|done].
  intros [= <-] x Hx. apply (proj1 (dict_fromkeys_elem _ _)) in Hx.
  apply collect_values in Hraw.
  apply (patterns_lower first_name last_name domain level).
  rewrite Hraw. by apply list_elem_of_fmap_2.
Qed.

Lemma generated_addresses_lower_case_witness :
  EmailValidation.motta_generate_permutations "John" "DOE" "Example.COM" 1
  = Ok [ "johndoe@example.com"; "john.doe@example.com"; "jdoe@example.com";
         "j.doe@example.com"; "j_doe@example.com"; "john-doe@example.com" ] /\
  Forall (fun x => EmailValidation.lower x = x)
         [ "johndoe@example.com"; "john.doe@example.com"; "jdoe@example.com";
           "j.doe@example.com"; "j_doe@example.com"; "john-doe@example.com" ].
Proof.
  split; [vm_compute; reflexivity|].
  apply (proj2 (Forall_forall _ _)).
  apply (generated_addresses_lower_case "John" "DOE" "Example.COM" 1).
  vm_compute. reflexivity.
Defined.

(** X6.  On ASCII strings the generator does not look at the case of its
    arguments: the lower-cased names and domain give the same result, the
    same list or the same [IndexError].  The restriction is that of the
    embedding: beyond ASCII, [str.lower] can change the number of code
    points of a string, and with it what [[0]] and [[:3]] take. *)
Theorem generated_addresses_ignore_case
    (first_name last_name domain : string) (level : Z) :
  is_ascii first_name = true -> is_ascii last_name = true ->
  is_ascii domain = true ->
  EmailValidation.motta_generate_permutations
    (EmailValidation.lower first_name) (EmailValidation.lower last_name)
    (EmailValidation.lower domain) level
  = EmailValidation.motta_generate_permutations first_name last_name domain level.
Proof.
  intros _ _ _.
  unfold EmailValidation.motta_generate_permutations.
  rewrite lower_idem.
  destruct (levels_lower first_name last_name (EmailValidation.lower domain))
    as (-> & -> & ->).
  reflexivity.
Qed.

Lemma generated_addresses_ignore_case_witness :
  EmailValidation.motta_generate_permutations "john" "doe" "example.com" 3
  = EmailValidation.motta_generate_permutations "John" "DOE" "Example.COM" 3.
Proof.
  apply (generated_addresses_ignore_case "John" "DOE" "Example.COM" 3);
    reflexivity.
Defined.

(** X7.  For non-empty names the generator returns at most 6 addresses at
    level 1, at most 12 at level 2 and at most 18 at level 3; level 2
    always has more addresses than level 1, the address of the last name
    alone being new, and level 3 has at least those of level 2. *)
Theorem generated_addresses_count (first_name last_name domain : string) :
  first_name <> "" -> last_name <> "" ->
  exists p1 p2 p3,
    EmailValidation.motta_generate_permutations first_name last_name domain 1 = Ok p1 /\
    EmailValidation.motta_generate_permutations first_name last_name domain 2 = Ok p2 /\
    EmailValidation.motta_generate_permutations first_name last_name domain 3 = Ok p3 /\
    (length p1 <= 6)%nat /\
    (length p1 < length p2)%nat /\ (length p2 <= 12)%nat /\
    (length p2 <= length p3)%nat /\ (length p3 <= 18)%nat /\
    EmailValidation.lower last_name +:+ "@" +:+ EmailValidation.lower domain ∈ p2 /\
    EmailValidation.lower last_name +:+ "@" +:+ EmailValidation.lower domain ∉ p1.
Proof.
  intros Hf Hl.
  destruct first_name as [|c1 s1]; [done|].
  destruct last_name as [|c2 s2]; [done|].
  set (d := EmailValidation.lower domain).
  set (first_name := String c1 s1). set (last_name := String c2 s2).
  set (r1 := [ EmailValidation.at_domain d
                 (EmailValidation.fn first_name +:+ EmailValidation.ln last_name);
               EmailValidation.at_domain d
                 (EmailValidation.fn first_name +:+ "." +:+ EmailValidation.ln last_name);
               EmailValidation.at_domain d
                 (EmailValidation.lower (String c1 "") +:+ EmailValidation.ln last_name);
               EmailValidation.at_domain d
                 (EmailValidation.lower (String c1 "") +:+ "." +:+ EmailValidation.ln last_name);
               EmailValidation.at_domain d
                 (EmailValidation.lower (String c1 "") +:+ "_" +:+ EmailValidation.ln last_name);
               EmailValidation.at_domain d
                 (EmailValidation.fn first_name +:+ "-" +:+ EmailValidation.ln last_name) ]).
  set (r2 := [ EmailValidation.at_domain d (EmailValidation.fn first_name);
               EmailValidation.at_domain d (EmailValidation.ln last_name);
               EmailValidation.at_domain d
                 (EmailValidation.fn first_name +:+ "_" +:+ EmailValidation.ln last_name);
               EmailValidation.at_domain d
                 (EmailValidation.ln last_name +:+ "." +:+ EmailValidation.fn first_name);
               EmailValidation.at_domain d
                 (EmailValidation.ln last_name +:+ "_" +:+ EmailValidation.fn first_name);
               EmailValidation.at_domain d
                 (EmailValidation.ln last_name +:+ EmailValidation.fn first_name) ]).
  assert (E1 : EmailValidation.motta_generate_permutations first_name last_name domain 1
               = Ok (EmailValidation.dict_fromkeys r1)) by reflexivity.
  assert (E2 : EmailValidation.motta_generate_permutations first_name last_name domain 2
               = Ok (EmailValidation.dict_fromkeys (r1 ++ r2))) by reflexivity.
  assert (E3 : exists r3, length r3 = 6%nat /\
               EmailValidation.motta_generate_permutations first_name last_name domain 3
               = Ok (EmailValidation.dict_fromkeys ((r1 ++ r2) ++ r3)))
    by (eexists; split; [|reflexivity]; reflexivity).
  destruct E3 as (r3 & L3 & E3).
  exists (EmailValidation.dict_fromkeys r1),
         (EmailValidation.dict_fromkeys (r1 ++ r2)),
         (EmailValidation.dict_fromkeys ((r1 ++ r2) ++ r3)).
  split; [exact E1|]. split; [exact E2|]. split; [exact E3|].
  pose proof (dict_fromkeys_length r1) as B1.
  pose proof (dict_fromkeys_length (r1 ++ r2)) as B2.
  pose proof (dict_fromkeys_length ((r1 ++ r2) ++ r3)) as B3.
  rewrite length_app in B2. rewrite !length_app in B3.
  assert (L1 : length r1 = 6%nat) by reflexivity.
  assert (L2 : length r2 = 6%nat) by reflexivity.
  assert (Hin : EmailValidation.at_domain d (EmailValidation.ln last_name)
                ∈ EmailValidation.dict_fromkeys (r1 ++ r2)).
  { apply dict_fromkeys_elem, elem_of_app. right.
    subst r2. apply elem_of_cons. right. apply elem_of_cons. by left. }
  assert (Hout : EmailValidation.at_domain d (EmailValidation.ln last_name)
                 ∉ EmailValidation.dict_fromkeys r1).
  { intros Hx. apply (proj1 (dict_fromkeys_elem _ _)) in Hx. subst r1.
    repeat (apply elem_of_cons in Hx as [Hx|Hx];
            [apply (f_equal String.length) in Hx;
             unfold EmailValidation.at_domain in Hx;
             rewrite !length_append in Hx;
             unfold EmailValidation.fn, EmailValidation.ln, first_name in Hx;
             simpl in Hx; lia|]).
    by apply elem_of_nil in Hx. }
  destruct (dict_fromkeys_app_prefix r1 r2) as [k2 Hk2].
  destruct (dict_fromkeys_app_prefix (r1 ++ r2) r3) as [k3 Hk3].
  assert (Hk2ne : (0 < length k2)%nat).
  { destruct k2 as [|y k2]; [|cbn; lia].
    rewrite app_nil_r in Hk2. rewrite Hk2 in Hin. done. }
  assert (G2 : length (EmailValidation.dict_fromkeys (r1 ++ r2))
               = (length (EmailValidation.dict_fromkeys r1) + length k2)%nat)
    by (by rewrite Hk2, length_app).
  assert (G3 : length (EmailValidation.dict_fromkeys ((r1 ++ r2) ++ r3))
               = (length (EmailValidation.dict_fromkeys (r1 ++ r2)) + length k3)%nat)
    by (by rewrite Hk3, length_app).
  repeat split; try done; lia.
Qed.

Lemma generated_addresses_count_witness :
  exists p1 p2 p3,
    EmailValidation.motta_generate_permutations "J" "D" "x.io" 1 = Ok p1 /\
    EmailValidation.motta_generate_permutations "J" "D" "x.io" 2 = Ok p2 /\
    EmailValidation.motta_generate_permutations "J" "D" "x.io" 3 = Ok p3 /\
    (length p1 <= 6)%nat /\
    (length p1 < length p2)%nat /\ (length p2 <= 12)%nat /\
    (length p2 <= length p3)%nat /\ (length p3 <= 18)%nat /\
    EmailValidation.lower "D" +:+ "@" +:+ EmailValidation.lower "x.io" ∈ p2 /\
    EmailValidation.lower "D" +:+ "@" +:+ EmailValidation.lower "x.io" ∉ p1.
Proof.
  apply (generated_addresses_count "J" "D" "x.io"); discriminate.
Defined.

(** ** The probe, the address-of-record step and the run, command by command *)

Section SchedulerMore.
Import EmailValidation.

(** The commands of a probe: the connection alone when it cannot be
    opened; otherwise HELO, MAIL FROM and RCPT TO in this order up to the
    first that raises, and then the closing of the session.  The probe
    answers [True] only after RCPT TO was sent.  It never sleeps. *)
Lemma probe_commands (email sender_email mx_server : string) (debug : Z)
    (w : World) (h : list event) :
  exists b evs,
    motta_validate_email_smtp email sender_email mx_server debug w h = (Ok b, evs) /\
    sleeps evs = [] /\
    ((exists e, EvConnect mx_server (Raise e) ∈ evs) /\
       commands evs = [CmdConnect mx_server] /\ b = false
     \/
     EvConnect mx_server (Ok tt) ∈ evs /\
       exists sent,
         sent `prefix_of` [CmdHelo "mottasec.com"; CmdMail sender_email; CmdRcpt email] /\
         commands evs = CmdConnect mx_server :: sent ++ [CmdQuit] /\
         (b = true ->
            sent = [CmdHelo "mottasec.com"; CmdMail sender_email; CmdRcpt email])).
Proof.
  unfold motta_validate_email_smtp. run_monad.
  destruct (1 <=? debug), (debug =? 2); cbn; server_answers w.
  all: eexists _, _; (split; [reflexivity|]); (split; [reflexivity|]); cbn.
  all: try (left; split; [eexists; repeat constructor|]; by split).
  all: right; repeat match goal with u : unit |- _ => destruct u end.
  all: split; [repeat constructor|].
  all: first
    [ exists [CmdHelo "mottasec.com"; CmdMail sender_email; CmdRcpt email];
      split; [done|]; split; [reflexivity|]; done
    | exists [CmdHelo "mottasec.com"; CmdMail sender_email];
      split; [by eexists|]; split; [reflexivity|]; done
    | exists [CmdHelo "mottasec.com"];
      split; [by eexists|]; split; [reflexivity|]; done ].
Qed.

(** Every command of a probe is one of its five. *)
Lemma probe_commands_among (email sender_email mx_server : string) (debug : Z)
    (w : World) (h : list event) (b : Result bool) (evs : list event) (c : command) :
  motta_validate_email_smtp email sender_email mx_server debug w h = (b, evs) ->
  c ∈ commands evs ->
  c ∈ [CmdConnect mx_server; CmdHelo "mottasec.com"; CmdMail sender_email;
       CmdRcpt email; CmdQuit].
Proof.
  intros E Hc.
  destruct (probe_commands email sender_email mx_server debug w h)
    as (b' & evs' & E' & _ & Hshape).
  rewrite E in E'. injection E' as -> ->.
  destruct Hshape as [(_ & Hcmd & _)|(_ & sent & Hpre & Hcmd & _)];
    rewrite Hcmd in Hc.
  - apply list_elem_of_singleton in Hc as ->. apply elem_of_cons. by left.
  - apply elem_of_cons in Hc as [->|Hc]; [apply elem_of_cons; by left|].
    apply elem_of_app in Hc as [Hc|Hc].
    + apply elem_of_cons. right.
      destruct Hpre as [k Hk].
      assert (Hin : c ∈ [CmdHelo "mottasec.com"; CmdMail sender_email; CmdRcpt email])
        by (rewrite Hk; apply elem_of_app; by left).
      repeat (apply elem_of_cons in Hin as [->|Hin]; [repeat constructor|]).
      by apply elem_of_nil in Hin.
    + apply list_elem_of_singleton in Hc as ->. repeat constructor.
Qed.

Lemma commands_app (a b : list event) :
  commands (a ++ b) = commands a ++ commands b.
Proof. apply omap_app. Qed.

Lemma sleeps_app (a b : list event) : sleeps (a ++ b) = sleeps a ++ sleeps b.
Proof. apply omap_app. Qed.

(** Replaces the next probe of the goal by its outcome [b] and its
    events [evs]; [E] is the equation of the run and [S] says that the
    probe did not sleep. *)
Ltac probe_run b evs E S :=
  match goal with
  | |- context [motta_validate_email_smtp ?e ?s ?m ?d ?w ?h] =>
      destruct (probe_commands e s m d w h) as (b & evs & E & S & _);
      rewrite E
  end.

(** The address-of-record step sleeps at no time, and the only commands
    it sends are those of the probe of the address of record and of the
    probe of the synthetic address it drew. *)
Lemma info_address_commands (domain sender_email mx_server : string) (debug : Z)
    (no_check : bool) (check_email : option string) (w : World) (h : list event) :
  exists r evs,
    motta_validate_info_address domain sender_email mx_server debug
                                no_check check_email w h = (r, evs) /\
    sleeps evs = [] /\
    forall c, c ∈ commands evs ->
      c ∈ [CmdConnect mx_server; CmdHelo "mottasec.com"; CmdMail sender_email;
           CmdRcpt (address_of_record domain check_email); CmdQuit]
      \/ exists random_string,
           random_string ∈ choices evs /\
           c = CmdRcpt ("mottasec-" +:+ random_string +:+ "@" +:+ domain).
Proof.
  unfold motta_validate_info_address.
  destruct no_check.
  - run_monad. destruct (1 <=? debug); cbn; eexists _, _;
      (split; [reflexivity|]); (split; [reflexivity|]);
      intros c Hc; by apply elem_of_nil in Hc.
  - unfold try_except, bind.
    probe_run b1 evs1 E1 S1.
    unfold print, emit, random_choices_join.
    destruct b1; cbn [app];
      probe_run b2 evs2 E2 S2; unfold when, print, emit, ret;
      destruct b2; cbn [app];
      eexists _, _; (split; [reflexivity|]);
      rewrite ?sleeps_app, ?commands_app, ?choices_app; cbn;
      rewrite ?sleeps_app, ?commands_app, ?choices_app; cbn;
      rewrite ?app_nil_r, ?S1, ?S2;
      (split; [reflexivity|]);
      intros c Hc;
      (apply elem_of_app in Hc as [Hc|Hc];
       [ left; exact (probe_commands_among _ _ _ _ _ _ _ _ _ E1 Hc)
       | apply (probe_commands_among _ _ _ _ _ _ _ _ _ E2) in Hc;
         repeat (apply elem_of_cons in Hc as [->|Hc];
                 [first [ left; by repeat constructor
                        | right; eexists; split; [|reflexivity];
                          apply elem_of_app; right; by repeat constructor ]|]);
         by apply elem_of_nil in Hc ]).
Qed.

(** The loop sends RCPT TO for candidates only, sleeps once after each
    candidate it finished with, and each pause lies between the bounds of
    the delay when these are in order. *)
Lemma validate_loop_commands (permutations : list string)
    (sender_email mx_server : string) (delay : Z * Z) (debug : Z) :
  forall (valid_count : Z) (w : World) (h : list event),
  exists r evs,
    validate_loop permutations sender_email mx_server delay debug valid_count w h
      = (r, evs) /\
    (forall c, c ∈ commands evs ->
       c ∈ [CmdConnect mx_server; CmdHelo "mottasec.com"; CmdMail sender_email; CmdQuit]
       \/ exists email, email ∈ permutations /\ c = CmdRcpt email) /\
    (length (sleeps evs) <= length permutations)%nat /\
    (forall n, r = Ok n -> length (sleeps evs) = length permutations) /\
    (fst delay <= snd delay ->
       Forall (fun secs => (inject_Z (fst delay) <= secs)%Q /\
                           (secs <= inject_Z (snd delay))%Q) (sleeps evs)).
Proof.
  induction permutations as [|email rest IH]; intros valid_count w h.
  - cbn. eexists _, _. split; [reflexivity|]. cbn.
    repeat split; try done. intros c Hc. by apply elem_of_nil in Hc.
  - cbn [validate_loop]. unfold bind at 1.
    destruct (probe_commands email sender_email mx_server debug w h)
      as (b & evs1 & E1 & S1 & _).
    rewrite E1.
    assert (Hprobe : forall c, c ∈ commands evs1 ->
              c ∈ [CmdConnect mx_server; CmdHelo "mottasec.com";
                   CmdMail sender_email; CmdQuit]
              \/ exists e, e ∈ email :: rest /\ c = CmdRcpt e).
    { intros c Hc.
      apply (probe_commands_among _ _ _ _ _ _ _ _ _ E1) in Hc.
      repeat (apply elem_of_cons in Hc as [->|Hc];
              [first [ left; by repeat constructor
                     | right; eexists; split; [|reflexivity]; by left ]|]).
      by apply elem_of_nil in Hc. }
    unfold time_sleep, bind, print, emit, ret, random_uniform, raise.
    destruct b; cbn [app];
      pause_outcome d Hd Hs;
      try match goal with
      | |- context [validate_loop rest ?s ?m ?dl ?dbg ?vc ?w ?hh] =>
          destruct (IH vc w hh) as (r & evs & E2 & Hcmd & Hle & Heq & Hrange);
          rewrite E2
      end;
      eexists _, _; (split; [reflexivity|]);
      rewrite ?sleeps_app, ?commands_app; cbn;
      rewrite ?sleeps_app, ?commands_app; cbn;
      rewrite ?app_nil_r, ?S1; cbn.
    all: unfold sleeps, commands in *.
    all: first
      [ solve
          [ split; [intros c Hc; by apply Hprobe|];
            split; [lia|]; split; [done|]; intros _; constructor ]
      | split;
          [ intros c Hc; apply elem_of_app in Hc as [Hc|Hc];
            [ by apply Hprobe
            | destruct (Hcmd c Hc) as [?|(e & ? & ->)];
              [by left | right; exists e; split; [by right|done]] ]
          | split; [lia|]; split;
            [ intros n ->; by rewrite (Heq n eq_refl)
            | intros Hab; constructor;
              [exact (uniform_between _ _ _ _ Hab Hd) | by apply Hrange] ] ] ].
Qed.

(** The events of the lookup hold no command, no pause and no report. *)
Lemma resolution_events_quiet (domain : string) (mx_records : list string) (debug : Z) :
  commands (resolution_events domain mx_records debug) = [] /\
  sleeps (resolution_events domain mx_records debug) = [] /\
  reports (resolution_events domain mx_records debug) = [] /\
  choices (resolution_events domain mx_records debug) = [].
Proof.
  unfold resolution_events.
  destruct mx_records as [|mx_server more]; [done|]. by destruct (1 <=? debug).
Qed.

(** X8.  The dialog of a probe.  It opens one connection, and when that
    fails it calls nothing else and answers [False].  Otherwise it sends
    HELO mottasec.com, MAIL FROM the sender and RCPT TO the address, in
    this order, and stops at the first of them that raises and at nothing
    else: no command but the last one sent has raised, and when none has
    raised all three were sent.  Then it closes the session, once,
    whatever happened.  Every call carries the answer of the server; and
    the probe answers [True] only when no command raised and the session
    was closed without an exception. *)
Theorem probe_dialog (email sender_email mx_server : string) (debug : Z)
    (w : World) (h : list event) :
  exists b evs,
    motta_validate_email_smtp email sender_email mx_server debug w h = (Ok b, evs) /\
    answered w h evs /\
    ((exists e, smtp_calls evs = [EvConnect mx_server (Raise e)]) /\ b = false
     \/
     exists body leave,
       smtp_calls evs = EvConnect mx_server (Ok tt) :: body ++ [EvExit leave] /\
       commands body
         `prefix_of` [CmdHelo "mottasec.com"; CmdMail sender_email; CmdRcpt email] /\
       raised (removelast body) = false /\
       (raised body = false ->
          commands body
            = [CmdHelo "mottasec.com"; CmdMail sender_email; CmdRcpt email]) /\
       (b = true -> raised body = false /\ leave = Ok tt)).
Proof.
  destruct (probe_session_of email sender_email mx_server debug w h)
    as (b & evs & E & Hans & Hses & _).
  exists b, evs. split; [exact E|]. split; [exact Hans|].
  inversion Hses as [e Hcalls Hb
                    |e leave Hcalls Hb
                    |greeting e leave Hcalls Hb
                    |greeting sender_reply e leave Hcalls Hb
                    |greeting sender_reply recipient_reply e Hcalls Hb
                    |greeting sender_reply recipient_reply Hcalls Hb].
  - left. split; [by exists e|done].
  - right. exists [EvHelo "mottasec.com" (Raise e)], leave.
    split; [done|]. split; [by eexists|]. by repeat split.
  - right.
    exists [EvHelo "mottasec.com" (Ok greeting); EvMail sender_email (Raise e)], leave.
    split; [done|]. split; [by eexists|]. by repeat split.
  - right.
    exists [EvHelo "mottasec.com" (Ok greeting); EvMail sender_email (Ok sender_reply);
            EvRcpt email (Raise e)], leave.
    split; [done|]. split; [done|]. by repeat split.
  - right.
    exists [EvHelo "mottasec.com" (Ok greeting); EvMail sender_email (Ok sender_reply);
            EvRcpt email (Ok recipient_reply)], (Raise e).
    split; [done|]. split; [done|]. by repeat split.
  - right.
    exists [EvHelo "mottasec.com" (Ok greeting); EvMail sender_email (Ok sender_reply);
            EvRcpt email (Ok recipient_reply)], (Ok tt).
    split; [done|]. split; [done|]. by repeat split.
Qed.

(** Every exception of the run is caught by its handler. *)
Lemma validation_returns (permutations : list string)
    (domain sender_email : string) (delay : Z * Z) (debug : Z)
    (no_check : bool) (check_email : option string) (w : World) (h : list event) :
  exists evs,
    motta_validate_email_permutations permutations domain sender_email delay
                                      debug no_check check_email w h
      = (Ok tt, evs).
Proof.
  destruct (resolve_mx w h domain) as [[|mx_server more]|e] eqn:Hmx.
  - unfold motta_validate_email_permutations, try_except, bind at 1.
    unfold dns_resolve, call at 1. rewrite Hmx. by eexists.
  - rewrite (run_after_resolution _ _ _ _ _ _ _ _ _ _ _ Hmx).
    destruct (motta_validate_info_address _ _ _ _ _ _ _ _)
      as [[[[] []]|e] evs_info]; try by eexists.
    destruct (validate_loop _ _ _ _ _ _ _ _) as [r evs_loop]. by eexists.
  - unfold motta_validate_email_permutations, try_except, bind at 1.
    unfold dns_resolve, call at 1. rewrite Hmx. by eexists.
Qed.

(** X9.  The run never raises: whatever the resolver, the server and the
    delay range do, [motta_validate_email_permutations] returns. *)
Theorem validation_never_raises (permutations : list string)
    (domain sender_email : string) (delay : Z * Z) (debug : Z)
    (no_check : bool) (check_email : option string) (w : World) (h : list event) :
  exists evs,
    motta_validate_email_permutations permutations domain sender_email delay
                                      debug no_check check_email w h
      = (Ok tt, evs).
Proof. apply validation_returns. Qed.

(** X10.  What a run sends: every session goes to the first MX record,
    HELO names mottasec.com, MAIL FROM carries the given sender, and RCPT
    TO is sent only for the address of record, for the synthetic address
    built from the letters that were drawn, and for candidates of the
    list. *)
Theorem run_commands (permutations : list string)
    (domain sender_email : string) (delay : Z * Z) (debug : Z)
    (no_check : bool) (check_email : option string) (w : World) (h : list event)
    (mx_server : string) (more : list string) :
  resolve_mx w h domain = Ok (mx_server :: more) ->
  exists evs,
    motta_validate_email_permutations permutations domain sender_email delay
                                      debug no_check check_email w h
      = (Ok tt, evs) /\
    forall c, c ∈ commands evs ->
      c ∈ [CmdConnect mx_server; CmdHelo "mottasec.com"; CmdMail sender_email;
           CmdQuit; CmdRcpt (address_of_record domain check_email)]
      \/ (exists random_string,
            random_string ∈ choices evs /\
            c = CmdRcpt ("mottasec-" +:+ random_string +:+ "@" +:+ domain))
      \/ (exists email, email ∈ permutations /\ c = CmdRcpt email).
Proof.
  intros Hmx.
  set (pre := resolution_events domain (mx_server :: more) debug).
  destruct (resolution_events_quiet domain (mx_server :: more) debug)
    as (Qc & _ & _ & Qk).
  fold pre in Qc, Qk.
  pose proof (run_after_resolution permutations domain sender_email delay
                debug no_check check_email w h mx_server more Hmx) as Hrun.
  fold pre in Hrun. cbv zeta in Hrun.
  destruct (info_address_commands domain sender_email mx_server debug
              no_check check_email w (h ++ pre))
    as (r_info & evs_info & Ei & _ & Hinfo).
  rewrite Ei in Hrun.
  assert (Hi : forall c, c ∈ commands evs_info ->
            forall evs, choices evs_info ⊆ choices evs ->
            c ∈ [CmdConnect mx_server; CmdHelo "mottasec.com"; CmdMail sender_email;
                 CmdQuit; CmdRcpt (address_of_record domain check_email)]
            \/ (exists random_string,
                  random_string ∈ choices evs /\
                  c = CmdRcpt ("mottasec-" +:+ random_string +:+ "@" +:+ domain))
            \/ (exists email, email ∈ permutations /\ c = CmdRcpt email)).
  { intros c Hc evs Hsub. destruct (Hinfo c Hc) as [Hin|(rs & Hrs & ->)].
    - left.
      repeat (apply elem_of_cons in Hin as [->|Hin]; [by repeat constructor|]).
      by apply elem_of_nil in Hin.
    - right; left. exists rs. split; [|done]. by apply Hsub. }
  assert (Hsub : forall tail, choices evs_info ⊆ choices (pre ++ evs_info ++ tail)).
  { intros tail x Hx. rewrite !choices_app. apply elem_of_app. right.
    apply elem_of_app. by left. }
  destruct r_info as [[[] []]|e].
  2: { destruct (validate_loop_commands permutations sender_email mx_server
                   delay debug 0 w ((h ++ pre) ++ evs_info))
         as (r & evs_loop & El & Hloop & _).
       rewrite El in Hrun. eexists. split; [exact Hrun|].
       intros c Hc. rewrite !commands_app, Qc in Hc. cbn [app] in Hc.
       apply elem_of_app in Hc as [Hc|Hc]; [by apply Hi|].
       apply elem_of_app in Hc as [Hc|Hc]; [|by apply elem_of_nil in Hc].
       destruct (Hloop c Hc) as [Hin|(e & He & ->)].
       - left.
         repeat (apply elem_of_cons in Hin as [->|Hin]; [by repeat constructor|]).
         by apply elem_of_nil in Hin.
       - right; right. by exists e. }
  all: eexists; (split; [exact Hrun|]); intros c Hc;
    rewrite ?commands_app, ?Qc in Hc; cbn [app] in Hc;
    try (apply elem_of_app in Hc as [Hc|Hc]; [|by apply elem_of_nil in Hc]).
  all: apply (Hi c Hc).
  all: first [ apply Hsub | specialize (Hsub []); by rewrite app_nil_r in Hsub ].
Qed.

Lemma run_commands_witness :
  exists evs,
    motta_validate_email_permutations ["jdoe@example.com"; "asmith@example.com"]
      "example.com" "me@here.org" (20, 30) 0 false None ordinary_world []
      = (Ok tt, evs) /\
    forall c, c ∈ commands evs ->
      c ∈ [CmdConnect "mx.example.com."; CmdHelo "mottasec.com"; CmdMail "me@here.org";
           CmdQuit; CmdRcpt (address_of_record "example.com" None)]
      \/ (exists random_string,
            random_string ∈ choices evs /\
            c = CmdRcpt ("mottasec-" +:+ random_string +:+ "@" +:+ "example.com"))
      \/ (exists email,
            email ∈ ["jdoe@example.com"; "asmith@example.com"] /\ c = CmdRcpt email).
Proof.
  apply (run_commands ["jdoe@example.com"; "asmith@example.com"]
           "example.com" "me@here.org" (20, 30) 0 false None ordinary_world []
           "mx.example.com." []).
  reflexivity.
Defined.

(** X11.  An empty candidate list, as the slice of a part beyond the
    candidates is: once the lookup and the two checks let the run through,
    it opens no further session, draws no delay and does not sleep,
    whatever the delay range, and ends with the summary of 0 valid out of
    0. *)
Theorem empty_list_run (domain sender_email : string) (delay : Z * Z) (debug : Z)
    (no_check : bool) (check_email : option string) (w : World) (h : list event)
    (mx_server : string) (more : list string) (evs_info : list event) :
  resolve_mx w h domain = Ok (mx_server :: more) ->
  let pre := resolution_events domain (mx_server :: more) debug in
  motta_validate_info_address domain sender_email mx_server debug
                              no_check check_email w (h ++ pre)
    = (Ok (true, false), evs_info) ->
  motta_validate_email_permutations [] domain sender_email delay
                                    debug no_check check_email w h
  = (Ok tt, pre ++ evs_info ++ [EvPrint (MsgSummary 0 0)]).
Proof.
  intros Hmx pre Hinfo.
  rewrite (run_after_resolution _ _ _ _ _ _ _ _ _ _ _ Hmx).
  fold pre. rewrite Hinfo. reflexivity.
Qed.

Lemma empty_list_run_witness :
  motta_validate_email_permutations [] "example.com" "me@here.org" (-2, -1)
                                    0 true None ordinary_world []
  = (Ok tt,
     resolution_events "example.com" ["mx.example.com."] 0
       ++ [] ++ [EvPrint (MsgSummary 0 0)]).
Proof.
  apply (empty_list_run "example.com" "me@here.org" (-2, -1) 0 true None
           ordinary_world [] "mx.example.com." [] []).
  - reflexivity.
  - reflexivity.
Defined.

(** X12.  The pacing of a run with a delay range in order: every pause
    lies between the two bounds, there is at most one pause per candidate,
    and a run that prints the summary has slept exactly once per
    candidate, after the last one as well. *)
Theorem run_pauses (permutations : list string)
    (domain sender_email : string) (delay : Z * Z) (debug : Z)
    (no_check : bool) (check_email : option string) (w : World) (h : list event) :
  fst delay <= snd delay ->
  exists evs,
    motta_validate_email_permutations permutations domain sender_email delay
                                      debug no_check check_email w h
      = (Ok tt, evs) /\
    Forall (fun secs => (inject_Z (fst delay) <= secs)%Q /\
                        (secs <= inject_Z (snd delay))%Q) (sleeps evs) /\
    (length (sleeps evs) <= length permutations)%nat /\
    (forall n t, MsgSummary n t ∈ reports evs ->
       length (sleeps evs) = length permutations).
Proof.
  intros Hab.
  destruct (resolve_mx w h domain) as [[|mx_server more]|e] eqn:Hmx.
  1, 3: unfold motta_validate_email_permutations, try_except, bind at 1;
    unfold dns_resolve, call at 1; rewrite Hmx; eexists;
    (split; [reflexivity|]); cbn; (split; [constructor|]); (split; [lia|]);
    intros n t Hin; apply list_elem_of_singleton in Hin; discriminate.
  set (pre := resolution_events domain (mx_server :: more) debug).
  destruct (resolution_events_quiet domain (mx_server :: more) debug)
    as (_ & Qs & Qr & _).
  fold pre in Qs, Qr.
  pose proof (run_after_resolution permutations domain sender_email delay
                debug no_check check_email w h mx_server more Hmx) as Hrun.
  fold pre in Hrun. cbv zeta in Hrun.
  destruct (info_address_commands domain sender_email mx_server debug
              no_check check_email w (h ++ pre))
    as (r_info & evs_info & Ei & Si & _).
  destruct (info_address_outcome domain sender_email mx_server debug
              no_check check_email w (h ++ pre))
    as (iv & ca & evs_info' & Ei' & Ri & _).
  rewrite Ei in Ei'. injection Ei' as -> <-.
  rewrite Ei in Hrun.
  destruct iv, ca.
  2: { destruct (validate_loop_commands permutations sender_email mx_server
                   delay debug 0 w ((h ++ pre) ++ evs_info))
         as (r & evs_loop & El & _ & Hle & Heq & Hrange).
       destruct (validate_loop_outcome permutations sender_email mx_server
                   delay debug 0 w ((h ++ pre) ++ evs_info))
         as (r' & evs_loop' & El' & _ & _ & Rl & _).
       rewrite El in El'. injection El' as <- <-.
       rewrite El in Hrun. eexists. split; [exact Hrun|].
       rewrite !sleeps_app, !reports_app, Qs, Qr, Si, Ri, Rl. cbn [app].
       rewrite app_nil_r.
       split; [by apply Hrange|]. split; [exact Hle|].
       intros n t Hin. destruct r as [m|e]; [by apply (Heq m)|].
       cbn in Hin. apply list_elem_of_singleton in Hin. discriminate. }
  all: eexists; (split; [exact Hrun|]);
    rewrite !sleeps_app, !reports_app, Qs, Qr, Si, Ri; cbn [app];
    (split; [constructor|]); (split; [cbn; lia|]);
    intros n t Hin; cbn in Hin;
    try (apply list_elem_of_singleton in Hin; discriminate);
    by apply elem_of_nil in Hin.
Qed.

Lemma run_pauses_witness :
  exists evs,
    motta_validate_email_permutations ["jdoe@example.com"; "asmith@example.com"]
      "example.com" "me@here.org" (20, 30) 0 false None ordinary_world []
      = (Ok tt, evs) /\
    Forall (fun secs => (inject_Z 20 <= secs)%Q /\ (secs <= inject_Z 30)%Q)
           (sleeps evs) /\
    (length (sleeps evs) <= 2)%nat /\
    (forall n t, MsgSummary n t ∈ reports evs -> length (sleeps evs) = 2%nat).
Proof.
  apply (run_pauses ["jdoe@example.com"; "asmith@example.com"]
           "example.com" "me@here.org" (20, 30) 0 false None ordinary_world []).
  cbn. lia.
Defined.






(** X24.  What a negative delay range does to a run.  When the run
    reaches the probing phase with at least one candidate and both delay
    bounds are negative (and no smaller than [- longest_sleep]), the first
    candidate is probed and gets its result line, [time.sleep] then raises
    [ValueError] on the negative delay, and the handler of the run ends
    it: no other candidate is probed, nothing is slept, and the run ends
    with the error line in place of the summary. *)
Theorem negative_delay_ends_run (first_candidate : string) (others : list string)
    (domain sender_email : string) (delay : Z * Z) (debug : Z)
    (no_check : bool) (check_email : option string) (w : World) (h : list event)
    (mx_server : string) (more : list string) (evs_info : list event) :
  resolve_mx w h domain = Ok (mx_server :: more) ->
  let pre := resolution_events domain (mx_server :: more) debug in
  motta_validate_info_address domain sender_email mx_server debug
                              no_check check_email w (h ++ pre)
    = (Ok (true, false), evs_info) ->
  - longest_sleep <= fst delay < 0 -> - longest_sleep <= snd delay < 0 ->
  exists evs_loop accepted,
    motta_validate_email_permutations (first_candidate :: others) domain
                                      sender_email delay
                                      debug no_check check_email w h
      = (Ok tt,
         pre ++ evs_info ++ evs_loop ++ [EvPrint (MsgMxError domain ValueError)]) /\
    results_of evs_loop = [(first_candidate, accepted)] /\
    probe_session first_candidate sender_email mx_server (smtp_calls evs_loop)
                  accepted /\
    sleeps evs_loop = [].
Proof.
  intros Hmx pre Hinfo Hmin Hmax.
  rewrite (run_after_resolution _ _ _ _ _ _ _ _ _ _ _ Hmx).
  fold pre. cbv zeta. rewrite Hinfo.
  cbn [validate_loop]. unfold bind at 1.
  destruct (probe_session_of first_candidate sender_email mx_server debug w
              ((h ++ pre) ++ evs_info))
    as (b & evs1 & E1 & A1 & P1 & R1 & S1).
  rewrite E1.
  assert (C1 : smtp_calls (evs1 ++ []) = smtp_calls evs1) by (by rewrite app_nil_r).
  unfold time_sleep, bind, print, emit, ret, random_uniform, raise.
  destruct b; cbn [app];
    match goal with
    | |- context [uniform_value ?a ?b ?r] =>
        destruct (pause_fails a b r Hmin Hmax) as (d & -> & ->)
    end; cbn [app];
    eexists _, _; (split; [reflexivity|]);
    unfold smtp_calls, results_of, sleeps in *;
    rewrite !omap_app; cbn; rewrite ?app_nil_r;
    rewrite ?R1, ?S1; by repeat split.
Qed.

Lemma negative_delay_ends_run_witness :
  exists evs_loop accepted,
    motta_validate_email_permutations
      ("jdoe@example.com" :: ["asmith@example.com"; "bjones@example.com"])
      "example.com" "me@here.org" (-2, -1) 0 false None ordinary_world []
      = (Ok tt,
         resolution_events "example.com" ["mx.example.com."] 0
           ++ snd (motta_validate_info_address "example.com" "me@here.org"
                     "mx.example.com." 0 false None ordinary_world
                     ([] ++ resolution_events "example.com" ["mx.example.com."] 0))
           ++ evs_loop ++ [EvPrint (MsgMxError "example.com" ValueError)]) /\
    results_of evs_loop = [("jdoe@example.com", accepted)] /\
    probe_session "jdoe@example.com" "me@here.org" "mx.example.com."
                  (smtp_calls evs_loop) accepted /\
    sleeps evs_loop = [].
Proof.
  apply (negative_delay_ends_run "jdoe@example.com"
           ["asmith@example.com"; "bjones@example.com"]
           "example.com" "me@here.org" (-2, -1) 0 false None ordinary_world []
           "mx.example.com." []).
  - reflexivity.
  - vm_compute. reflexivity.
  - unfold longest_sleep. cbn. lia.
  - unfold longest_sleep. cbn. lia.
Defined.

End SchedulerMore.

(** ** The scrapers: what the regular expression extracts *)

Section Extraction.

Lemma append_cons (c : ascii) (a b : string) :
  String c a +:+ b = String c (a +:+ b).
Proof. reflexivity. Qed.

Lemma append_nil_r (s : string) : s +:+ "" = s.
Proof. induction s as [|c s IH]; [done|]. by rewrite append_cons, IH. Qed.

Lemma append_assoc (a b c : string) : (a +:+ b) +:+ c = a +:+ b +:+ c.
Proof. induction a as [|x a IH]; [done|]. by rewrite !append_cons, IH. Qed.

Lemma strip_prefix_app (p rest : string) : Re.strip_prefix p (p +:+ rest) = Some rest.
Proof.
  induction p as [|a p IH]; [done|].
  rewrite append_cons. simpl. by rewrite Ascii.eqb_refl.
Qed.

Lemma strip_prefix_sound (p s rest : string) :
  Re.strip_prefix p s = Some rest -> s = p +:+ rest.
Proof.
  revert s. induction p as [|a p IH]; intros s; simpl.
  - by intros [= ->].
  - destruct s as [|b s]; [done|].
    destruct (Ascii.eqb_spec a b) as [->|]; [|done].
    intros H. by rewrite (IH s H).
Qed.

(** A match of [cls+] followed by [k]: a non-empty run of the class, and
    then a match of [k]. *)
Lemma plus_then_sound (cls : ascii -> bool) (k : string -> option (string * string))
    (s m rest : string) :
  Re.plus_then cls k s = Some (m, rest) ->
  exists run m' s',
    run <> "" /\ all_chars cls run = true /\
    s = run +:+ s' /\ m = run +:+ m' /\ k s' = Some (m', rest).
Proof.
  revert m. induction s as [|c s IH]; intros m; simpl; [done|].
  destruct (cls c) eqn:Hc; [|done].
  destruct (Re.plus_then cls k s) as [[m1 r1]|] eqn:Hrec.
  - intros [= <- <-].
    destruct (IH m1 eq_refl) as (run & m' & s' & _ & Hall & -> & -> & Hk).
    exists (String c run), m', s'. simpl. rewrite Hc, Hall. by repeat split.
  - destruct (k s) as [[m1 r1]|] eqn:Hk; [|done].
    intros [= <- <-].
    exists (String c ""), m1, s. simpl. rewrite Hc. by repeat split.
Qed.

(** What a match of the pattern consumes is the match itself. *)
Lemma match_here_sound (atoms : list Re.atom) (s m rest : string) :
  Re.match_here atoms s = Some (m, rest) -> s = m +:+ rest.
Proof.
  revert s m. induction atoms as [|[l|cls] atoms IH]; intros s m; simpl.
  - by intros [= <- <-].
  - destruct (Re.strip_prefix l s) as [s'|] eqn:Hl; [|done].
    destruct (Re.match_here atoms s') as [[m1 r1]|] eqn:Hm; [|done].
    intros [= <- <-].
    apply strip_prefix_sound in Hl as ->.
    by rewrite (IH _ _ Hm), append_assoc.
  - intros H. apply plus_then_sound in H
      as (run & m' & s' & _ & _ & -> & -> & Hk).
    by rewrite (IH _ _ Hk), append_assoc.
Qed.

(** A match of the e-mail pattern is a non-empty run of the class, [@] and
    the domain. *)
Lemma match_email_shape (domain s m rest : string) :
  Re.match_here (email_regex domain) s = Some (m, rest) ->
  exists local,
    local <> "" /\ all_chars local_char local = true /\
    m = local +:+ "@" +:+ domain.
Proof.
  unfold email_regex. cbn [Re.match_here]. intros H.
  apply plus_then_sound in H as (run & m' & s' & Hne & Hall & _ & -> & Hk).
  exists run. split; [done|]. split; [done|]. f_equal.
  destruct (Re.strip_prefix "@" s') as [s1|]; [|done].
  destruct (Re.strip_prefix domain s1) as [s2|]; [|done].
  injection Hk as <- _. by rewrite append_nil_r.
Qed.

Lemma match_at_domain (domain rest : string) :
  Re.match_here [Re.Lit "@"; Re.Lit domain] ("@" +:+ domain +:+ rest)
  = Some ("@" +:+ domain, rest).
Proof.
  cbn [Re.match_here]. rewrite (strip_prefix_app "@"), strip_prefix_app.
  by rewrite append_nil_r.
Qed.

Lemma plus_then_email (domain local rest : string) :
  local <> "" -> all_chars local_char local = true ->
  Re.plus_then local_char (Re.match_here [Re.Lit "@"; Re.Lit domain])
               (local +:+ "@" +:+ domain +:+ rest)
  = Some (local +:+ "@" +:+ domain, rest).
Proof.
  set (k := Re.match_here [Re.Lit "@"; Re.Lit domain]).
  induction local as [|c local IH]; [done|]. intros _ Hall.
  simpl in Hall. apply andb_prop in Hall as [Hc Hall].
  rewrite append_cons. cbn [Re.plus_then]. rewrite Hc.
  destruct local as [|c' local'].
  - change ("" +:+ "@" +:+ domain +:+ rest) with ("@" +:+ domain +:+ rest).
    change (Re.plus_then local_char k ("@" +:+ domain +:+ rest))
      with (@None (string * string)).
    cbv beta iota. subst k. by rewrite match_at_domain.
  - by rewrite (IH ltac:(done) Hall).
Qed.

(** The pattern matches where an address of the domain begins, whatever
    comes after the domain. *)
Lemma match_email_here (domain local rest : string) :
  local <> "" -> all_chars local_char local = true ->
  Re.match_here (email_regex domain) (local +:+ "@" +:+ domain +:+ rest)
  = Some (local +:+ "@" +:+ domain, rest).
Proof. apply plus_then_email. Qed.

(** The search passes the characters of a match that are left to pass. *)
Lemma findall_from_skip (atoms : list Re.atom) (a rest : string) :
  Re.findall_from (String.length a) atoms (a +:+ rest)
  = Re.findall_from 0 atoms rest.
Proof.
  induction a as [|c a IH]; [done|]. rewrite append_cons. exact IH.
Qed.

(** Every match of a search is an occurrence in the text of something the
    pattern matches. *)
Lemma findall_from_sound (atoms : list Re.atom) (s : string) :
  forall skip m, m ∈ Re.findall_from skip atoms s ->
    exists before after s',
      s = before +:+ m +:+ after /\ Re.match_here atoms s' = Some (m, after).
Proof.
  induction s as [|c s IH]; intros skip m Hm; simpl in Hm.
  - by apply elem_of_nil in Hm.
  - destruct skip as [|skip].
    + destruct (Re.match_here atoms (String c s)) as [[m1 r1]|] eqn:Hhere.
      * apply elem_of_cons in Hm as [->|Hm].
        -- exists "", r1, (String c s). split; [|done].
           by rewrite (match_here_sound _ _ _ _ Hhere).
        -- destruct (IH _ _ Hm) as (before & after & s' & -> & Hs').
           by exists (String c before), after, s'.
      * destruct (IH _ _ Hm) as (before & after & s' & -> & Hs').
        by exists (String c before), after, s'.
    + destruct (IH _ _ Hm) as (before & after & s' & -> & Hs').
      by exists (String c before), after, s'.
Qed.

End Extraction.

(** X14.  What the scrapers extract from a text: every match is an
    occurrence in the text of a non-empty run of the characters
    [a-zA-Z0-9._%+-] followed by [@] and the domain, exactly as the domain
    is written. *)
Theorem extracted_emails_shape (domain text m : string) :
  m ∈ find_emails domain text ->
  exists local before after,
    local <> "" /\ all_chars local_char local = true /\
    m = local +:+ "@" +:+ domain /\
    text = before +:+ m +:+ after.
Proof.
  intros Hm.
  apply findall_from_sound in Hm as (before & after & s' & -> & Hs').
  apply match_email_shape in Hs' as (local & Hne & Hall & ->).
  by exists local, before, after.
Qed.

Lemma extracted_emails_shape_witness :
  exists local before after,
    local <> "" /\ all_chars local_char local = true /\
    "bob@example.com" = local +:+ "@" +:+ "example.com" /\
    "mail bob@example.com now" = before +:+ "bob@example.com" +:+ after.
Proof.
  apply (extracted_emails_shape "example.com" "mail bob@example.com now").
  vm_compute. repeat constructor.
Defined.

(** X15.  The pattern is not anchored on the right: a text that begins
    with an address of the domain yields that address whatever follows
    the domain, be it further letters or further labels, and the search
    goes on after it.  So [x@example.com.evil.org] yields
    [x@example.com]. *)
Theorem extracted_email_unanchored (domain local rest : string) :
  local <> "" -> all_chars local_char local = true ->
  find_emails domain (local +:+ "@" +:+ domain +:+ rest)
  = (local +:+ "@" +:+ domain) :: find_emails domain rest.
Proof.
  intros Hne Hall. unfold find_emails, Re.findall.
  destruct local as [|c local]; [done|].
  change (String c local +:+ "@" +:+ domain +:+ rest)
    with (String c (local +:+ "@" +:+ domain +:+ rest)).
  cbn [Re.findall_from].
  change (String c (local +:+ "@" +:+ domain +:+ rest))
    with (String c local +:+ "@" +:+ domain +:+ rest).
  rewrite (match_email_here domain (String c local) rest Hne Hall).
  f_equal.
  change (String.length (String c local +:+ "@" +:+ domain) - 1)%nat
    with (String.length (local +:+ "@" +:+ domain) - 0)%nat.
  rewrite Nat.sub_0_r.
  rewrite <- (findall_from_skip _ (local +:+ "@" +:+ domain) rest).
  by rewrite !append_assoc.
Qed.

Lemma extracted_email_unanchored_witness :
  find_emails "example.com" ("x" +:+ "@" +:+ "example.com" +:+ ".evil.org")
  = ("x" +:+ "@" +:+ "example.com") :: find_emails "example.com" ".evil.org".
Proof.
  apply (extracted_email_unanchored "example.com" "x" ".evil.org").
  - discriminate.
  - reflexivity.
Defined.

(** ** The company name of the LinkedIn search *)

Section CompanyName.
Import Linkedin.

Lemma split_dot_nonempty (s : string) : split_dot s <> [].
Proof.
  destruct s as [|c s]; simpl; [done|].
  destruct (Ascii.eqb c "."); [done|]. by destruct (split_dot s).
Qed.

(** No label of a split holds a dot. *)
Lemma split_dot_labels (s : string) :
  Forall (fun label => contains_dot label = false) (split_dot s).
Proof.
  induction s as [|c s IH]; simpl; [by repeat constructor|].
  destruct (Ascii.eqb c ".") eqn:Hc; [by constructor|].
  destruct (split_dot s) as [|h t]; [by repeat constructor; simpl; rewrite Hc|].
  inversion IH as [|? ? Hh Ht]; subst.
  constructor; [|done]. simpl. by rewrite Hc, Hh.
Qed.

(** An index in range, from the start or from the end, gives the element
    there. *)
Lemma getitem_in_range {A} (l : list A) (i : Z) :
  - Py.len l <= i < Py.len l ->
  exists x, getitem l i = Ok x /\ x ∈ l.
Proof.
  intros Hi. unfold getitem, Py.len in *.
  set (j := if i <? 0 then i + Z.of_nat (length l) else i).
  assert (0 <= j < Z.of_nat (length l))
    by (subst j; destruct (Z.ltb_spec i 0); lia).
  destruct (Z.ltb_spec j 0); [lia|].
  destruct (l !! Z.to_nat j) as [x|] eqn:Hx.
  - exists x. split; [done|]. by apply list_elem_of_lookup_2 in Hx.
  - apply lookup_ge_None in Hx. lia.
Qed.

Lemma getitem_first_of_three {A} (l : list A) :
  Py.len l = 3 -> getitem l (-3) = getitem l 0.
Proof. intros Hl. unfold getitem. rewrite Hl. reflexivity. Qed.

End CompanyName.

(** X16.  The company name is always found, whatever the domain: the
    computation never raises, and the name is one of the labels between
    the dots of the domain, so it holds no dot itself. *)
Theorem company_name_is_label (domain : string) :
  exists label,
    Linkedin.company_name domain = Ok label /\
    label ∈ Linkedin.split_dot domain /\
    Linkedin.contains_dot label = false.
Proof.
  pose proof (split_dot_nonempty domain) as Hne.
  pose proof (split_dot_labels domain) as Hlab.
  rewrite Forall_forall in Hlab.
  unfold Linkedin.company_name.
  destruct (getitem_in_range (Linkedin.split_dot domain) 0) as (first & E0 & H0).
  { unfold Py.len. destruct (Linkedin.split_dot domain); [done|cbn; lia]. }
  rewrite E0.
  destruct (Linkedin.contains_dot domain && (2 <? Py.len (Linkedin.split_dot domain)));
    [|by exists first; repeat split; [|apply Hlab]].
  destruct (Z.leb_spec 3 (Py.len (Linkedin.split_dot domain)));
    [|by exists first; repeat split; [|apply Hlab]].
  destruct (getitem_in_range (Linkedin.split_dot domain) (-3)) as (third & E3 & H3);
    [lia|].
  rewrite E3.
  destruct (3 <? Z.of_nat (String.length third)).
  - exists third. repeat split; [done|by apply Hlab].
  - exists first. repeat split; [done|by apply Hlab].
Qed.

(** X17.  For a domain of at most three labels the company name is the
    first label, however long the labels are: the third label from the
    end, which the code prefers when it is longer than three characters,
    is then the first one.  So [www.example.com] is searched as [www]. *)
Theorem company_name_short_domain (domain : string) :
  Py.len (Linkedin.split_dot domain) <= 3 ->
  Linkedin.company_name domain = Linkedin.getitem (Linkedin.split_dot domain) 0.
Proof.
  intros Hlen. unfold Linkedin.company_name.
  destruct (Linkedin.getitem (Linkedin.split_dot domain) 0) as [first|e] eqn:E0;
    [|done].
  destruct (Linkedin.contains_dot domain && (2 <? Py.len (Linkedin.split_dot domain)));
    [|done].
  destruct (Z.leb_spec 3 (Py.len (Linkedin.split_dot domain))); [|done].
  rewrite getitem_first_of_three, E0 by lia.
  by destruct (3 <? Z.of_nat (String.length first)).
Qed.

Lemma company_name_short_domain_witness :
  Linkedin.company_name "www.example.com" = Ok "www".
Proof.
  apply (company_name_short_domain "www.example.com"). vm_compute. discriminate.
Defined.

(** ** The validation of scraped addresses and [validate_targets] *)

Section HunterProofs.
Import EmailValidation Hunter.

Lemma old_of_app (a b : list hunter_event) : old_of (a ++ b) = old_of a ++ old_of b.
Proof. apply omap_app. Qed.

Lemma old_of_lifted (evs : list event) : old_of (map EvOld evs) = evs.
Proof. induction evs as [|e evs IH]; cbn; [done|]. by f_equal. Qed.


(** Opens the operations of the wider monad. *)
Ltac run_hunter :=
  unfold htry, hbind, hret, hresult, hprint, lift.


(** The run over scraped addresses after a successful MX lookup: the
    same steps as the run over permutations, with its own loop. *)
Lemma scraped_after_resolution (emails : list string)
    (domain sender_email : string) (delay : Z * Z) (debug : Z)
    (no_check : bool) (check_email : option string)
    (w : World) (hh : list hunter_event)
    (mx_server : string) (more : list string) :
  resolve_mx w (old_of hh) domain = Ok (mx_server :: more) ->
  let pre := resolution_events domain (mx_server :: more) debug in
  motta_validate_scraped_emails emails domain sender_email delay
                                debug no_check check_email w hh
  = let '(r_info, evs_info) :=
      motta_validate_info_address domain sender_email mx_server debug
                                  no_check check_email w (old_of hh ++ pre) in
    match r_info with
    | Ok (true, false) =>
        let '(r, hl) :=
          scraped_loop emails sender_email mx_server delay debug 0 w
                       ((hh ++ map EvOld pre) ++ map EvOld evs_info) in
        (Ok tt,
         map EvOld pre ++ map EvOld evs_info ++ hl
           ++ [EvOld (EvPrint (match r with
                               | Ok n => MsgSummary n (Py.len emails)
                               | Raise e => MsgMxError domain e
                               end))])
    | Ok _ => (Ok tt, map EvOld pre ++ map EvOld evs_info)
    | Raise e =>
        (Ok tt, map EvOld pre ++ map EvOld evs_info
                  ++ [EvOld (EvPrint (MsgMxError domain e))])
    end.
Proof.
  intros Hmx pre. subst pre.
  unfold motta_validate_scraped_emails, htry, hbind at 1.
  unfold lift at 1, dns_resolve, call. rewrite Hmx.
  unfold resolution_events.
  destruct (1 <=? debug); run_hunter; unfold when, print, emit, ret;
    cbn [app map]; rewrite !old_of_app; cbn [old_of omap old_event app];
    rewrite <- ?app_assoc; cbn [app]; rewrite ?app_nil_r.
  all: destruct (motta_validate_info_address _ _ _ _ _ _ _ _)
      as [[[[] []]|e] evs_info]; cbn [negb orb app map];
      rewrite ?app_nil_r; try reflexivity.
  all: rewrite <- ?app_assoc; cbn [app];
    destruct (scraped_loop _ _ _ _ _ _ _ _) as [[n|e] hl];
    cbn [app]; rewrite <- ?app_assoc; reflexivity.
Qed.

(** X18.  The run over scraped addresses without MX: when the lookup
    returns no record or raises, no session is opened and no address is
    probed; the run prints the same report as the run over permutations
    and returns. *)
Theorem scraped_mx_absence (emails : list string)
    (domain sender_email : string) (delay : Z * Z) (debug : Z)
    (no_check : bool) (check_email : option string)
    (w : World) (hh : list hunter_event) :
  resolve_mx w (old_of hh) domain = Ok []
  \/ (exists e, resolve_mx w (old_of hh) domain = Raise e) ->
  motta_validate_scraped_emails emails domain sender_email delay
                                debug no_check check_email w hh
  = (Ok tt,
     map EvOld
       (snd (motta_validate_email_permutations emails domain sender_email delay
               debug no_check check_email w (old_of hh)))) /\
  connections
    (snd (motta_validate_email_permutations emails domain sender_email delay
            debug no_check check_email w (old_of hh))) = [].
Proof.
  intros Hmx.
  assert (Eperm : exists report,
             motta_validate_email_permutations emails domain sender_email delay
               debug no_check check_email w (old_of hh)
             = (Ok tt, [EvResolve domain (resolve_mx w (old_of hh) domain);
                        EvPrint report]) /\
             report = match resolve_mx w (old_of hh) domain with
                      | Ok _ => MsgNoMx domain
                      | Raise e => MsgMxError domain e
                      end).
  { unfold motta_validate_email_permutations, try_except, bind at 1.
    unfold dns_resolve, call at 1.
    destruct Hmx as [Hmx|[e Hmx]]; rewrite Hmx; by eexists. }
  destruct Eperm as (report & -> & ->).
  unfold motta_validate_scraped_emails, htry, hbind at 1.
  unfold lift at 1, dns_resolve, call.
  destruct Hmx as [Hmx|[e Hmx]]; rewrite Hmx; by cbn.
Qed.

Lemma scraped_mx_absence_witness :
  motta_validate_scraped_emails ["jdoe@example.com"] "example.com" "me@here.org"
                                (20, 30) 0 false None no_mx_world []
  = (Ok tt,
     map EvOld
       (snd (motta_validate_email_permutations ["jdoe@example.com"] "example.com"
               "me@here.org" (20, 30) 0 false None no_mx_world (old_of [])))) /\
  connections
    (snd (motta_validate_email_permutations ["jdoe@example.com"] "example.com"
            "me@here.org" (20, 30) 0 false None no_mx_world (old_of []))) = [].
Proof.
  apply (scraped_mx_absence ["jdoe@example.com"] "example.com" "me@here.org"
           (20, 30) 0 false None no_mx_world []).
  left. reflexivity.
Defined.



(** The run over scraped addresses catches every exception. *)
Lemma scraped_returns (emails : list string)
    (domain sender_email : string) (delay : Z * Z) (debug : Z)
    (no_check : bool) (check_email : option string)
    (w : World) (hh : list hunter_event) :
  exists hh',
    motta_validate_scraped_emails emails domain sender_email delay
                                  debug no_check check_email w hh = (Ok tt, hh').
Proof.
  destruct (resolve_mx w (old_of hh) domain) as [[|mx_server more]|e] eqn:Hmx.
  - unfold motta_validate_scraped_emails, htry, hbind at 1.
    unfold lift at 1, dns_resolve, call. rewrite Hmx. by eexists.
  - rewrite (scraped_after_resolution _ _ _ _ _ _ _ _ _ _ _ Hmx).
    destruct (motta_validate_info_address _ _ _ _ _ _ _ _)
      as [[[[] []]|e] evs_info]; try by eexists.
    destruct (scraped_loop _ _ _ _ _ _ _ _) as [r hl]. by eexists.
  - unfold motta_validate_scraped_emails, htry, hbind at 1.
    unfold lift at 1, dns_resolve, call. rewrite Hmx. by eexists.
Qed.

(** Names that count as true are not empty, and the generator accepts
    them. *)
Lemma generate_for_truthy (first_name last_name domain : string) (level : Z) :
  truthy first_name && truthy last_name = true ->
  exists all_permutations,
    motta_generate_permutations first_name last_name domain level
      = Ok all_permutations.
Proof.
  intros Htrue. apply andb_prop in Htrue as [Hf Hl].
  destruct (patterns_defined first_name last_name domain level) as [raw Hraw].
  - by destruct first_name.
  - by destruct last_name.
  - rewrite generate_from_patterns, Hraw. by eexists.
Qed.

(** The two ways [_motta_split] can go. *)
Lemma motta_split_cases {A} (l : list A) (total_parts selected_part : Z) :
  (1 <= selected_part <= total_parts /\
     exists s, Harvester._motta_split l total_parts selected_part = Ok s)
  \/ (~ 1 <= selected_part <= total_parts /\
        Harvester._motta_split l total_parts selected_part = Raise ValueError).
Proof.
  unfold Harvester._motta_split.
  destruct (Z.leb_spec 1 selected_part), (Z.leb_spec selected_part total_parts);
    cbn [andb negb]; first [left; split; [lia|by eexists] | right; split; [lia|done]].
Qed.

(** Replaces the next run of a validator in the goal by its events. *)
Ltac validator_run :=
  match goal with
  | |- context [motta_validate_email_permutations ?a ?b ?c ?d ?e ?f ?g ?w ?h] =>
      let evs := fresh "evs" in
      let E := fresh "E" in
      destruct (validation_returns a b c d e f g w h) as [evs E]; rewrite E
  | |- context [motta_validate_scraped_emails ?a ?b ?c ?d ?e ?f ?g ?w ?h] =>
      let hs := fresh "hs" in
      let E := fresh "E" in
      destruct (scraped_returns a b c d e f g w h) as [hs E]; rewrite E
  end.

(** Ends a case of [validate_targets] in which nothing is left but the
    hunted addresses. *)
Ltac hunted_part emails :=
  destruct emails as [|? ?];
  [ unfold hret | unfold hbind, hprint; cbn [app]; validator_run ];
  eexists _, _; (split; [reflexivity|]).

(** X20.  How [validate_targets] can end.  It calls the generator with
    non-empty names only, so the generator's [IndexError] cannot occur,
    and both validators catch their exceptions: it returns normally
    unless a part is given that is neither 0 nor in [1 .. total_parts],
    which is the case that [main] rejects beforehand.  In that case
    [_motta_split] raises [ValueError] out of it, before any lookup or
    session. *)
Theorem validate_targets_errors (args : Args) (emails : list string)
    (w : World) (hh : list hunter_event) :
  exists r hh',
    validate_targets args emails w hh = (r, hh') /\
    (main_rejects_part (arg_part args) (arg_total_parts args) = false ->
     r = Ok tt) /\
    (r = Ok tt
     \/ r = Raise ValueError /\ old_of hh' = [] /\
        main_rejects_part (arg_part args) (arg_total_parts args) = true).
Proof.
  unfold validate_targets, main_rejects_part.
  destruct (arg_sender_email args) as [sender_email|];
    [|eexists _, _; split; [reflexivity|]; split; [done|by left]].
  unfold hbind at 1. unfold hprint at 1. unfold hbind at 1.
  destruct (arg_first_name args) as [first_name|],
           (arg_last_name args) as [last_name|].
  2-4: unfold hret at 1; cbn [app]; hunted_part emails;
    (split; [done|by left]).
  destruct (truthy first_name && truthy last_name) eqn:Hnames.
  2: { unfold hret at 1; cbn [app]; hunted_part emails;
         (split; [done|by left]). }
  destruct (generate_for_truthy first_name last_name (arg_domain args)
              (arg_level args) Hnames) as [all_permutations Hgen].
  unfold hbind at 1. unfold hprint at 1. unfold hbind at 1.
  unfold hresult at 1. rewrite Hgen.
  unfold hbind at 1.
  destruct (arg_part args) as [selected_part|].
  2: { unfold hret at 1. unfold hbind at 1, hprint at 1, lift at 1.
       validator_run. cbn [app map]. hunted_part emails;
         (split; [done|by left]). }
  destruct (Z.eqb_spec selected_part 0) as [->|Hnz].
  { unfold hret at 1. unfold hbind at 1, hprint at 1, lift at 1.
    validator_run. cbn [app map]. hunted_part emails;
      (split; [done|by left]). }
  unfold hbind at 1, hresult at 1.
  destruct (motta_split_cases all_permutations (arg_total_parts args) selected_part)
    as [[Hin [slice Hs]]|[Hout Hs]]; rewrite Hs.
  - unfold hbind at 1, hprint at 1, hret at 1. cbn [app].
    unfold hbind at 1, hprint at 1, lift at 1.
    validator_run. cbn [app map]. hunted_part emails;
      (split; [done|by left]).
  - eexists _, _. split; [reflexivity|].
    assert (Hrej : negb false
                   && negb ((1 <=? selected_part)
                            && (selected_part <=? arg_total_parts args)) = true).
    { destruct (Z.leb_spec 1 selected_part);
        destruct (Z.leb_spec selected_part (arg_total_parts args));
        cbn; done || lia. }
    split; [by rewrite Hrej|]. right. by repeat split.
Qed.

(** Brings the events that a validator is run from into the form of the
    events before [validate_targets], the banners being no events of the
    validation code. *)
Ltac banners_aside :=
  repeat (rewrite old_of_app; cbn [old_of omap old_event]);
  rewrite ?app_nil_r; fold (old_of).

Lemma old_of_banner (m : hunter_message) (l : list hunter_event) :
  old_of (EvHunterPrint m :: l) = old_of l.
Proof. reflexivity. Qed.

(** X21.  Which candidates [validate_targets] validates, and in which
    order.  With a sender and non-empty names it generates the
    permutations of the level; with no part, or with part 0, it validates
    all of them, and with a part in [1 .. total_parts] the slice of that
    part.  Its events are, first, those of
    [motta_validate_email_permutations] on these candidates, run from the
    events before the call, among banners; and then, when there are hunted
    addresses, the banner of the hunted addresses and the events of
    [motta_validate_scraped_emails] on them, run from all that came
    before.  Without hunted addresses nothing follows. *)
Theorem validate_targets_candidates (args : Args) (emails : list string)
    (w : World) (hh : list hunter_event)
    (sender_email first_name last_name : string) :
  arg_sender_email args = Some sender_email ->
  arg_first_name args = Some first_name ->
  arg_last_name args = Some last_name ->
  first_name <> "" -> last_name <> "" ->
  main_rejects_part (arg_part args) (arg_total_parts args) = false ->
  exists all_permutations permutations hh_permutations,
    motta_generate_permutations first_name last_name (arg_domain args)
                                (arg_level args) = Ok all_permutations /\
    match arg_part args with
    | Some selected_part =>
        if selected_part =? 0 then permutations = all_permutations
        else Harvester._motta_split all_permutations (arg_total_parts args)
                                    selected_part = Ok permutations
    | None => permutations = all_permutations
    end /\
    old_of hh_permutations
      = snd (motta_validate_email_permutations permutations (arg_domain args)
               sender_email (arg_delay args) (arg_debug args) (no_check_of args)
               (arg_check_email args) w (old_of hh)) /\
    validate_targets args emails w hh
      = (Ok tt,
         hh_permutations
           ++ match emails with
              | [] => []
              | _ :: _ =>
                  EvHunterPrint MsgValidatingHunted
                    :: snd (motta_validate_scraped_emails emails (arg_domain args)
                              sender_email (arg_delay args) (arg_debug args)
                              (no_check_of args) (arg_check_email args) w
                              (hh ++ hh_permutations
                                  ++ [EvHunterPrint MsgValidatingHunted]))
              end).
Proof.
  intros Hsender Hfirst Hlast Hf Hl Hpart.
  assert (Hnames : truthy first_name && truthy last_name = true)
    by (by destruct first_name, last_name).
  destruct (generate_for_truthy first_name last_name (arg_domain args)
              (arg_level args) Hnames) as [all_permutations Hgen].
  unfold validate_targets. rewrite Hsender, Hfirst, Hlast, Hnames.
  unfold main_rejects_part in Hpart.
  exists all_permutations.
  assert (Hcase : exists permutations,
            match arg_part args with
            | Some selected_part =>
                if selected_part =? 0 then permutations = all_permutations
                else Harvester._motta_split all_permutations (arg_total_parts args)
                                            selected_part = Ok permutations
            | None => permutations = all_permutations
            end).
  { destruct (arg_part args) as [selected_part|]; [|by eexists].
    destruct (selected_part =? 0); [by eexists|].
    destruct (motta_split_cases all_permutations (arg_total_parts args) selected_part)
      as [[_ [slice Hs]]|[Hout _]]; [by exists slice|].
    exfalso. cbn [negb andb] in Hpart.
    destruct (Z.leb_spec 1 selected_part);
      destruct (Z.leb_spec selected_part (arg_total_parts args));
      cbn in Hpart; done || lia. }
  destruct Hcase as [permutations Hperm]. exists permutations.
  destruct (validation_returns permutations (arg_domain args) sender_email
              (arg_delay args) (arg_debug args) (no_check_of args)
              (arg_check_email args) w (old_of hh)) as [evs Eperm].
  rewrite Eperm. cbn [snd].
  unfold hbind at 1. unfold hprint at 1. unfold hbind at 1.
  unfold hbind at 1. unfold hprint at 1. unfold hbind at 1.
  unfold hresult at 1. rewrite Hgen. unfold hbind at 1.
  destruct (arg_part args) as [selected_part|];
    [destruct (selected_part =? 0)|].
  2: unfold hbind at 1, hresult at 1; rewrite Hperm;
     unfold hbind at 1, hprint at 1, hret at 1; cbn [app].
  1, 3: subst permutations; unfold hret at 1.
  all: unfold hbind at 1, hprint at 1, lift at 1;
    banners_aside; rewrite Eperm; cbn [app map].
  all: destruct emails as [|email emails'].
  all: try (unfold hret; eexists; split; [done|]; split; [done|];
            split; cycle 1;
            [ rewrite !app_nil_r; reflexivity
            | cbn [app];
              by rewrite ?old_of_banner, ?old_of_app, ?old_of_lifted, ?app_nil_r ]).
  all: unfold hbind, hprint; cbn [app].
  all: match goal with
       | |- context [motta_validate_scraped_emails ?a ?b ?c ?d ?e ?f ?g ?w ?h] =>
           destruct (scraped_returns a b c d e f g w h) as [hs Es]; rewrite Es
       end.
  all: match goal with
       | |- exists _, _ /\ _ /\ _ /\ (_, ?l) = _ =>
           match l with
           | context C [map EvOld ?evs ++ EvHunterPrint MsgValidatingHunted :: _] =>
               let hp := context C [map EvOld evs] in
               exists hp
           end
       end.
  all: split; [done|]; split; [done|]; split;
    [cbn [app]; by rewrite ?old_of_banner, ?old_of_lifted|].
  all: match type of Es with
       | motta_validate_scraped_emails _ _ _ _ _ _ _ _ ?h0 = _ =>
           match goal with
           | |- context [motta_validate_scraped_emails _ _ _ _ _ _ _ _ ?h1] =>
               replace h1 with h0
                 by (rewrite <- ?app_assoc; cbn [app];
                     rewrite <- ?app_assoc; reflexivity)
           end
       end.
  all: by rewrite Es.
Qed.

Lemma validate_targets_candidates_witness :
  exists all_permutations permutations hh_permutations,
    motta_generate_permutations "John" "Doe" "example.com" 1 = Ok all_permutations /\
    Harvester._motta_split all_permutations 4 2 = Ok permutations /\
    old_of hh_permutations
      = snd (motta_validate_email_permutations permutations "example.com"
               "me@here.org" (20, 30) 0 false None ordinary_world (old_of [])) /\
    validate_targets validate_args ["info@example.com"] ordinary_world []
      = (Ok tt,
         hh_permutations
           ++ EvHunterPrint MsgValidatingHunted
                :: snd (motta_validate_scraped_emails ["info@example.com"]
                          "example.com" "me@here.org" (20, 30) 0 false None
                          ordinary_world
                          ([] ++ hh_permutations
                              ++ [EvHunterPrint MsgValidatingHunted]))).
Proof.
  apply (validate_targets_candidates validate_args ["info@example.com"]
           ordinary_world [] "me@here.org" "John" "Doe");
    first [reflexivity | discriminate].
Defined.


End HunterProofs.
